(** * msub_generic.py: compiling a command list into a SLURM array-job script

    A shallow embedding of [src/msub_generic.py] and the properties of its
    four stages: command ingestion, script compilation, collision-safe file
    creation and submission launch.

    Text is [string] (one [ascii] per character; the model covers ASCII
    input), Python [int] is [Z], optional command-line values are [option],
    the file system is a finite map from paths to contents, and the effects
    of [main] are threaded through an explicit [World]. *)

From stdpp Require Import gmap strings pretty list.
From Stdlib Require Import Ascii ZArith Lia.

Local Open Scope Z_scope.

(** ** Python built-ins used by the script *)

Module Py.

Definition nl : ascii := ascii_of_nat 10.
Definition dquote : ascii := ascii_of_nat 34.
Definition chr (a : ascii) : string := String a "".

(** [str.isspace] on the ASCII range: TAB..CR, FS..US and SPACE. *)
Definition isspace (a : ascii) : bool :=
  let n := nat_of_ascii a in
  (Nat.leb 9 n && Nat.leb n 13) || (Nat.leb 28 n && Nat.leb n 32).

Fixpoint lstrip (s : string) : string :=
  match s with
  | "" => ""
  | String a r => if isspace a then lstrip r else s
  end.

Fixpoint rstrip (s : string) : string :=
  match s with
  | "" => ""
  | String a r =>
      match rstrip r with
      | "" => if isspace a then "" else chr a
      | t => String a t
      end
  end.

(** [s.strip()] *)
Definition strip (s : string) : string := rstrip (lstrip s).

(** [s.startswith(p)] *)
Definition startswith (s p : string) : bool := String.prefix p s.

(** [s.endswith(p)] *)
Definition endswith (s p : string) : bool :=
  String.prefix (String.rev p) (String.rev s).

(** [s[:-n]] for a positive literal [n] *)
Definition drop_last (n : nat) (s : string) : string :=
  String.substring 0 (String.length s - n) s.

(** [c in s] for a one-character [c] *)
Fixpoint contains (c : ascii) (s : string) : bool :=
  match s with
  | "" => false
  | String a r => if Ascii.eqb a c then true else contains c r
  end.

(** [s.split(c)] for a one-character separator: never the empty list. *)
Fixpoint split (c : ascii) (s : string) : list string :=
  match s with
  | "" => [""]
  | String a r =>
      if Ascii.eqb a c then "" :: split c r
      else match split c r with
           | [] => [chr a]
           | w :: ws => String a w :: ws
           end
  end.

(** [sep.join(l)] *)
Definition join (sep : string) (l : list string) : string :=
  String.concat sep l.

Definition cons_word (w : string) (ws : list string) : list string :=
  match w with "" => ws | _ => w :: ws end.

Fixpoint split_ws_go (s : string) : string * list string :=
  match s with
  | "" => ("", [])
  | String a r =>
      let '(w, ws) := split_ws_go r in
      if isspace a then ("", cons_word w ws) else (String a w, ws)
  end.

(** [s.split()]: the maximal runs of non-blank characters. *)
Definition split_ws (s : string) : list string :=
  let '(w, ws) := split_ws_go s in cons_word w ws.

Definition digit (a : ascii) : option Z :=
  let n := nat_of_ascii a in
  if Nat.leb 48 n && Nat.leb n 57 then Some (Z.of_nat (n - 48)) else None.

(** The digit part of an integer literal as [int()] reads it: decimal
    digits, single underscores allowed between two digits. [seen] tells
    whether the previous character was a digit. *)
Fixpoint int_digits (acc : Z) (seen : bool) (s : string) : option Z :=
  match s with
  | "" => if seen then Some acc else None
  | String a r =>
      match digit a with
      | Some d => int_digits (10 * acc + d) true r
      | None =>
          if Ascii.eqb a "_" && seen then int_digits acc false r else None
      end
  end.

(** The blanks [int()] skips around an ASCII literal are those of C's
    [isspace]: TAB..CR and SPACE, not FS..US. *)
Definition isspace_c (a : ascii) : bool :=
  let n := nat_of_ascii a in
  (Nat.leb 9 n && Nat.leb n 13) || Nat.eqb n 32.

Fixpoint lstrip_by (f : ascii → bool) (s : string) : string :=
  match s with
  | "" => ""
  | String a r => if f a then lstrip_by f r else s
  end.

Fixpoint rstrip_by (f : ascii → bool) (s : string) : string :=
  match s with
  | "" => ""
  | String a r =>
      match rstrip_by f r with
      | "" => if f a then "" else chr a
      | t => String a t
      end
  end.

(** [int(s)]: [None] stands for [ValueError]. Surrounding blanks and one
    sign are accepted. (The interpreter's configurable cap on the number of
    digits is not modelled.) *)
Definition int (s : string) : option Z :=
  match rstrip_by isspace_c (lstrip_by isspace_c s) with
  | String "+" r => int_digits 0 false r
  | String "-" r => Z.opp <$> int_digits 0 false r
  | t => int_digits 0 false t
  end.

(** [str(z)] and the [%i] / [{}] renderings of an integer. *)
Definition str (z : Z) : string := pretty z.

Fixpoint spaces (n : nat) : string :=
  match n with O => "" | S k => String " " (spaces k) end.

(** [format(s, "<n")]: left-aligned in a field of width [n]. *)
Definition ljust (n : nat) (s : string) : string :=
  s +:+ spaces (n - String.length s).

(** [os.path.basename(p)] (POSIX): what follows the last slash. *)
Definition basename (p : string) : string :=
  List.last (split "/" p) "".

(** Truthiness of an optional string ([None] and [''] are false). *)
Definition truthy_str (o : option string) : bool :=
  match o with Some (String _ _) => true | _ => false end.

(** Truthiness of an optional integer ([None] and [0] are false). *)
Definition truthy_int (o : option Z) : bool :=
  match o with Some z => negb (z =? 0) | None => false end.

End Py.

(** ** Exceptions, file handles and the world the script runs in *)

Inductive exn : Type :=
  | ValueError (literal : string)
  | IndexError
  | FileExistsError
  | PermissionError (path : string)
  | FileNotFoundError (msg : string).

Global Instance exn_eq_dec : EqDecision exn.
Proof. solve_decision. Defined.

(** What the command line gives ([parse_args]): a flag that was not given is
    [None], except where the parser has a default. *)
Record Args : Type := mkArgs {
  begin : option string;
  cpu : Z;
  mem : option Z;
  environ : option string;
  final : option string;
  hold : option string;
  nosubmit : bool;
  max_running_task : option Z;
  iinput : option string;
  input : option string;
  name : option string;
  noemail : bool;
  sync : bool;
  hard_sync : bool;
  priority : Z;
  queue : string;
  stdoutdir : string;
  quiet : bool
}.

(** The defaults of [parse_args]. *)
Definition default_args : Args :=
  {| begin := None; cpu := 1; mem := None; environ := None; final := None;
     hold := None; nosubmit := false; max_running_task := None;
     iinput := None; input := None; name := None; noemail := false;
     sync := false; hard_sync := false; priority := 50; queue := "global";
     stdoutdir := "slurm_output"; quiet := false |}.

(** Writing to the open script: the state is the text written so far, and a
    computation either finishes or raises, keeping what was written. *)
Definition Out (A : Type) : Type := string → string * (exn + A).

Global Instance Out_ret : MRet Out := λ A x buf, (buf, inr x).
Global Instance Out_bind : MBind Out := λ A B f m buf,
  match m buf with
  | (buf', inr x) => f x buf'
  | (buf', inl e) => (buf', inl e)
  end.
Definition raise {A : Type} (e : exn) : Out A := λ buf, (buf, inl e).

(** [print(s, file=ofh)] *)
Definition print (s : string) : Out unit :=
  λ buf, (buf +:+ s +:+ Py.chr Py.nl, inr ()).

(** The helper [P] of [write_header], its lines already formatted. *)
Fixpoint P (ls : list string) : Out unit :=
  match ls with
  | [] => mret ()
  | l :: r => print l;; P r
  end.

(** ** The script compiler *)

(** [munge_hold_arg]: [inl] is the [ValueError] of [int]. *)
Definition munge_hold_arg (hold_arg : string) : exn + string :=
  if Py.contains ":" hold_arg then inr hold_arg
  else
    match mapM Py.int (Py.split "," hold_arg) with
    | Some ids => inr ("afterok:" +:+ Py.join ":" (Py.str <$> ids))
    | None =>
        inl (ValueError
               (default "" (head (filter (λ j, Py.int j = None)
                                         (Py.split "," hold_arg)))))
    end.

Definition lift {A : Type} (r : exn + A) : Out A := λ buf, (buf, r).

(** The cores per task: the legacy parallel-environment string is read only
    when [--cpu] is 1. *)
Definition cpu_count_of (args : Args) : exn + Z :=
  if (cpu args =? 1) && Py.truthy_str (environ args) then
    match last (Py.split_ws (default "" (environ args))) with
    | None => inl IndexError
    | Some w =>
        match Py.int w with
        | Some z => inr z
        | None => inl (ValueError w)
        end
    end
  else inr (cpu args).

(** [args.mem or (6144 * args.cpu)] *)
Definition mem_limit_of (args : Args) : Z :=
  if Py.truthy_int (mem args) then default 0 (mem args)
  else 6144 * cpu args.

(** The value of the [-a] directive. *)
Definition array_param_of (args : Args) (task_count : nat) : string :=
  let array_param := "0-" +:+ Py.str (Z.of_nat task_count - 1) in
  if Py.truthy_int (max_running_task args)
  then array_param +:+ "%" +:+ Py.str (default 0 (max_running_task args))
  else array_param.

Definition array_line (array_param : string) : string :=
  "#SBATCH -a " +:+ Py.ljust 17 array_param
    +:+ "   # array of tasks and max number to run at once".

Definition mem_line (mem_limit : Z) : string :=
  "#SBATCH --mem " +:+ Py.ljust 15 (Py.str mem_limit)
    +:+ "  # memory pool per task (not per core)".

Definition write_header (ofh_name : string) (args : Args) (task_count : nat)
  : Out unit :=
  cpu_count ← lift (cpu_count_of args);
  let mem_limit := mem_limit_of args in
  let jobname := Py.drop_last 7 (Py.basename ofh_name) in
  let array_param := array_param_of args task_count in
  P ["#!/bin/bash"; "#"];;
  P [array_line array_param];;
  P ["#SBATCH -n 1                   # 1 task per node (fixed for all msub jobs)"];;
  P ["#SBATCH -c " +:+ Py.ljust 15 (Py.str cpu_count)
       +:+ "     # number of cores per task"];;
  P [mem_line mem_limit];;
  P ["#SBATCH -o " +:+ stdoutdir args +:+ "/" +:+ jobname
       +:+ ".%A.%a.out     # STDOUT"];;
  P ["#SBATCH -e " +:+ stdoutdir args +:+ "/" +:+ jobname
       +:+ ".%A.%a.err     # STDERR"];;
  (if Py.truthy_str (hold args) then
     hold_arg ← lift (munge_hold_arg (default "" (hold args)));
     P ["#SBATCH -d " +:+ hold_arg +:+ "  # hold off waiting for jobs"]
   else mret ());;
  (if noemail args
   then P ["#SBATCH --mail-type=NONE       # no email"]
   else P ["#SBATCH --mail-type=END,FAIL   # notifications for job done & fail"]);;
  P [""; "set -euo pipefail"; "IFS=$'\n\t'"; ""];;
  (if Py.truthy_str (begin args)
   then P [default "" (begin args); ""] else mret ());;
  P ["TASK=${TASK:-unset}"];;
  P ["case ${SLURM_ARRAY_TASK_ID:-$TASK} in"].

(** The text of one dispatch branch, as [write_command] formats it. *)
Definition branch_text (task_number : nat) (cmd : string) : string :=
  Py.str (Z.of_nat task_number) +:+ ") " +:+ cmd +:+ Py.chr Py.nl +:+ ";;".

Definition write_command (args : Args) (cmd : string) (task_number : nat)
  : Out unit :=
  print (branch_text task_number cmd).

(** [for i, c in enumerate(command_list): write_command(ofh, args, c, i)],
    [i] being the index of the head of the remaining list. *)
Fixpoint write_commands (args : Args) (i : nat) (command_list : list string)
  : Out unit :=
  match command_list with
  | [] => mret ()
  | c :: rest => write_command args c i;; write_commands args (S i) rest
  end.

Definition default_branch : string :=
  "*) echo " +:+ Py.chr Py.dquote
    +:+ "Unexpected SLURM_ARRAY_TASK_ID=${SLURM_ARRAY_TASK_ID:-$TASK}"
    +:+ Py.chr Py.dquote.

Definition write_footer (args : Args) : Out unit :=
  print default_branch;;
  print "esac";;
  print "";;
  if Py.truthy_str (final args) then print (default "" (final args))
  else mret ().

(** The body of the [with] block of [main]. *)
Definition compile (ofh_name : string) (args : Args)
    (command_list : list string) : Out unit :=
  write_header ofh_name args (length command_list);;
  write_commands args 0 command_list;;
  write_footer args.

(** ** The command ingestor *)

Inductive ingested : Type :=
  | Rejected
  | Commands (command_list : list string).

(** A line that looks like a SLURM or SGE directive. *)
Definition is_directive (l : string) : bool :=
  Py.startswith l "#SBATCH " || Py.startswith l "#$ -".

(** The reading loop of [main] over the lines the input yields. The second
    component is what the loop left unread. *)
Fixpoint ingest_loop (input_file : list string) (command_list : list string)
  : ingested * list string :=
  match input_file with
  | [] => (Commands command_list, [])
  | raw :: rest =>
      let l := Py.strip raw in
      if is_directive l then (Rejected, rest)
      else if String.eqb l "." then (Commands command_list, rest)
      else if String.eqb l "" || Py.startswith l "#"
           then ingest_loop rest command_list
      else ingest_loop rest (command_list ++ [l])
  end.

Definition ingest (input_file : list string) : ingested :=
  (ingest_loop input_file []).1.

(** ** The collision-safe writer *)

(** The file system: the text of every existing file, and the paths at which
    creating a file is refused. *)
Record World : Type := mkWorld {
  files : gmap string string;
  denied : gset string;
  dirs : gset string;
  stdout : list string;
  executed : option (list string)
}.

Definition with_files (w : World) (fs : gmap string string) : World :=
  {| files := fs; denied := denied w; dirs := dirs w; stdout := stdout w;
     executed := executed w |}.

(** [open(path, 'x')] *)
Definition open_x (w : World) (path : string) : exn + World :=
  match files w !! path with
  | Some _ => inl FileExistsError
  | None =>
      if decide (path ∈ denied w) then inl (PermissionError path)
      else inr (with_files w (<[path := ""]> (files w)))
  end.

(** The name tried after [_counter] conflicts. *)
Definition next_name (filename : string) (_counter : Z) : string :=
  if Py.contains "." (Py.basename filename) then
    let segs := Py.split "." filename in
    Py.join "." (removelast segs ++ [Py.str _counter]
                   ++ drop (length segs - 1) segs)
  else filename +:+ "." +:+ Py.str _counter.

(** The loop of [open_sesame.__init__]; [None] when [fuel] iterations did
    not end it. *)
Fixpoint open_sesame_loop (fuel : nat) (w : World)
    (filename _filename : string) (_counter : Z)
  : option (exn + string * World) :=
  match fuel with
  | O => None
  | S fuel' =>
      match open_x w _filename with
      | inr w' => Some (inr (_filename, w'))
      | inl FileExistsError =>
          let _counter := _counter + 1 in
          open_sesame_loop fuel' w filename (next_name filename _counter)
            _counter
      | inl e => Some (inl e)
      end
  end.

Definition open_sesame (fuel : nat) (w : World) (filename : string)
  : option (exn + string * World) :=
  open_sesame_loop fuel w filename filename 0.

(** ** The submission launcher *)

(** What the run asks of its surroundings: the lookups of
    [find_sbatch_wait], the read of the input during which the user
    interrupts (if any), and the error with which a program fails to
    start (if any). *)
Record Env : Type := mkEnv {
  which_finds : bool;
  argv0_abspath_dir : string;
  argv0_realpath_dir : string;
  is_executable_file : string → bool;
  interrupt_at : option nat;
  exec_error : string → option exn
}.

Definition find_sbatch_wait (env : Env) : exn + string :=
  if which_finds env then inr "sbatch_wait.sh"
  else
    let sw := argv0_abspath_dir env +:+ "/sbatch_wait.sh" in
    if is_executable_file env sw then inr sw
    else
      let sw := argv0_realpath_dir env +:+ "/sbatch_wait.sh" in
      if is_executable_file env sw then inr sw
      else inl (FileNotFoundError
                  "Unable to locate an executable sbatch_wait.sh").

Definition job_flags_of (args : Args) : list string :=
  ["-p"; queue args; "--nice=" +:+ Py.str (priority args)]
    ++ (if sync args then ["--wait"] else []).

(** The line printed in place of a submission. *)
Definition preview_line (args : Args) (sbatch script_file : string) : string :=
  Py.join " " (["mkdir -p"; stdoutdir args; ";"; sbatch]
                 ++ job_flags_of args ++ [script_file]).

Inductive Outcome : Type :=
  | Exit (code : Z)
  | Uncaught (e : exn)
  | Returned
  | Replaced.

(** [os.makedirs(path, exist_ok=True)]: raises when a file of that name is
    in the way or when creating at that path is refused. *)
Definition makedirs (w : World) (path : string) : exn + World :=
  match files w !! path with
  | Some _ => inl FileExistsError
  | None =>
      if decide (path ∈ denied w) then inl (PermissionError path)
      else inr {| files := files w; denied := denied w;
                  dirs := {[path]} ∪ dirs w;
                  stdout := stdout w; executed := executed w |}
  end.

(** The last step of [main]: preview, or create the directory and replace
    the process; the directory may be refused and the program may fail to
    start, after the directory was made. *)
Definition launch (env : Env) (args : Args) (script_file : string) (w : World)
  : Outcome * World :=
  match (if hard_sync args then find_sbatch_wait env else inr "sbatch") with
  | inl e => (Uncaught e, w)
  | inr sbatch =>
      if nosubmit args then
        (Returned,
         {| files := files w; denied := denied w; dirs := dirs w;
            stdout := stdout w ++ [preview_line args sbatch script_file];
            executed := executed w |})
      else
        match makedirs w (stdoutdir args) with
        | inl e => (Uncaught e, w)
        | inr w1 =>
            match exec_error env sbatch with
            | Some e => (Uncaught e, w1)
            | None =>
                (Replaced,
                 {| files := files w1; denied := denied w1; dirs := dirs w1;
                    stdout := stdout w1;
                    executed :=
                      Some ([sbatch] ++ job_flags_of args ++ [script_file]) |})
            end
        end
  end.

(** The number of reads the loop of [main] makes of its input, the one that
    finds the end of the input included. *)
Fixpoint reads_of (input_file : list string) : nat :=
  match input_file with
  | [] => 1
  | raw :: rest =>
      let l := Py.strip raw in
      if is_directive l || String.eqb l "." then 1 else S (reads_of rest)
  end.

(** [KeyboardInterrupt] arrives during one of the reads of the loop. *)
Definition interrupted (env : Env) (input_file : list string) : bool :=
  match interrupt_at env with
  | Some n => Nat.ltb n (reads_of input_file)
  | None => false
  end.

(** [args.iinput or args.input] *)
Definition input_arg (args : Args) : option string :=
  if Py.truthy_str (iinput args) then iinput args else input args.

Definition or_str (o : option string) (d : string) : string :=
  if Py.truthy_str o then default "" o else d.

Definition job_name_of (args : Args) : string :=
  let _i := input_arg args in
  let job_name :=
    if String.eqb (or_str _i "-") "-" then or_str (name args) "msub_stdin"
    else
      let job_name := or_str (name args) (Py.basename (default "" _i)) in
      if Py.endswith job_name ".sh" then Py.drop_last 3 job_name
      else job_name in
  if String.eqb job_name "" || Py.startswith job_name "."
  then "msub" +:+ job_name else job_name.

(** [main], given the lines that reading the chosen input yields. Opening a
    named input is outside the model; log messages are not recorded.
    [exit] with a message, as after an interrupt, is exit status 1.
    [None]: the writer's loop was still running after [fuel] attempts. *)
Definition main (fuel : nat) (env : Env) (args : Args)
    (input_file : list string) (w : World) : option (Outcome * World) :=
  if Py.truthy_str (iinput args) && Py.truthy_str (input args)
  then Some (Exit 1, w)
  else if interrupted env input_file then Some (Exit 1, w)
  else
    let job_name := job_name_of args in
    match ingest input_file with
    | Rejected => Some (Exit 1, w)
    | Commands [] => Some (Exit 1, w)
    | Commands command_list =>
        match open_sesame fuel w (job_name +:+ ".sbatch") with
        | None => None
        | Some (inl e) => Some (Uncaught e, w)
        | Some (inr (script_file, w1)) =>
            let '(text, r) := compile script_file args command_list "" in
            let w2 := with_files w1 (<[script_file := text]> (files w1)) in
            match r with
            | inl e => Some (Uncaught e, w2)
            | inr _ => Some (launch env args script_file w2)
            end
        end
    end.

(** * The vocabulary of the properties *)

(** The text of a sequence of printed lines. *)
Definition unlines (ls : list string) : string :=
  foldr (λ l r, l +:+ Py.chr Py.nl +:+ r) "" ls.

(** [m] only ever adds to the text it is given. *)
Definition appends {A : Type} (m : Out A) : Prop :=
  ∀ buf, ∃ post r, m buf = (buf +:+ post, r).

(** The first lines of the header, up to the memory directive. *)
Definition header_top (args : Args) (task_count : nat) (cpu_count : Z)
  : list string :=
  [ "#!/bin/bash"; "#";
    array_line (array_param_of args task_count);
    "#SBATCH -n 1                   # 1 task per node (fixed for all msub jobs)";
    "#SBATCH -c " +:+ Py.ljust 15 (Py.str cpu_count)
      +:+ "     # number of cores per task";
    mem_line (mem_limit_of args) ].

(** [p in s] for strings. *)
Fixpoint occurs (p s : string) : bool :=
  String.prefix p s
  || match s with "" => false | String _ r => occurs p r end.

(** The expression the generated script dispatches on. *)
Definition selector : string := "${SLURM_ARRAY_TASK_ID:-$TASK}".

Definition footer_lines (args : Args) : list string :=
  [default_branch; "esac"; ""]
    ++ (if Py.truthy_str (final args) then [default "" (final args)] else []).

(** The label and the command of each branch, in the order written. *)
Definition branches (command_list : list string) : list (string * string) :=
  imap (λ i c, (Py.str (Z.of_nat i), c)) command_list.

(** The lines of the branches with the given labels and commands. *)
Fixpoint branch_lines (bs : list (string * string)) : list string :=
  match bs with
  | [] => []
  | (label, cmd) :: rest =>
      (label +:+ ") " +:+ cmd) :: ";;" :: branch_lines rest
  end.

(** A line [label) command] cut at its first closing parenthesis. *)
Fixpoint cut_label (line : string) : option (string * string) :=
  match line with
  | "" => None
  | String a r =>
      if Ascii.eqb a ")" then
        match r with
        | String " " cmd => Some ("", cmd)
        | _ => None
        end
      else
        match cut_label r with
        | Some (label, cmd) => Some (String a label, cmd)
        | None => None
        end
  end.

(** Reading branches back from lines, two by two: a labelled line, then the
    end-of-branch marker. *)
Fixpoint read_branches (lines : list string) : option (list (string * string)) :=
  match lines with
  | [] => Some []
  | line :: rest =>
      match rest with
      | marker :: rest' =>
          if String.eqb marker ";;" then
            match cut_label line, read_branches rest' with
            | Some b, Some bs => Some (b :: bs)
            | _, _ => None
            end
          else None
      | [] => None
      end
  end.

(** The number of places at which [p] occurs in [s]. *)
Fixpoint count_sub (p s : string) : nat :=
  ((if String.prefix p s then 1 else 0)
   + match s with "" => 0 | String _ r => count_sub p r end)%nat.

(** The name of the [k]-th attempt. *)
Definition candidate (filename : string) (k : nat) : string :=
  match k with
  | O => filename
  | S _ => next_name filename (Z.of_nat k)
  end.

(** One attempt, with the name it was made at. *)
Definition attempt (w : World) (path : string) : exn + string * World :=
  match open_x w path with
  | inl e => inl e
  | inr w' => inr (path, w')
  end.

(** A third run beside [job.sbatch] and [job.1.sbatch]. *)
Definition two_scripts : World :=
  {| files := {["job.sbatch" := "first"; "job.1.sbatch" := "second"]};
     denied := ∅; dirs := ∅; stdout := []; executed := None |}.

(** The executable [main] settles on. *)
Definition resolved (env : Env) (args : Args) (sbatch : string) : Prop :=
  if hard_sync args then find_sbatch_wait env = inr sbatch
  else sbatch = "sbatch".

(** What a run that started in [w] and ended in [w'] with outcome [o] did
    to the directories, the process and the standard output. *)
Definition run_effects (env : Env) (args : Args) (w w' : World) (o : Outcome)
  : Prop :=
  if nosubmit args then
    dirs w' = dirs w ∧ executed w' = executed w ∧ o ≠ Replaced
    ∧ (o ≠ Returned → stdout w' = stdout w)
  else
    stdout w' = stdout w ∧ o ≠ Returned
    ∧ (dirs w' = dirs w ∨ dirs w' = {[stdoutdir args]} ∪ dirs w)
    ∧ (o = Replaced →
       ∃ sbatch script_file,
         resolved env args sbatch
         ∧ is_Some (files w' !! script_file)
         ∧ dirs w' = {[stdoutdir args]} ∪ dirs w
         ∧ executed w'
           = Some ([sbatch] ++ job_flags_of args ++ [script_file]))
    ∧ (o ≠ Replaced → executed w' = executed w).

(** Sample surroundings: no wrapper script anywhere, nothing on disk, and a
    dry run of one command read from the standard input. *)
Definition no_wrapper : Env :=
  {| which_finds := false; argv0_abspath_dir := "/usr/bin";
     argv0_realpath_dir := "/opt/msub"; is_executable_file := λ _, false;
     interrupt_at := None; exec_error := λ _, None |}.

Definition empty_world : World :=
  {| files := ∅; denied := ∅; dirs := ∅; stdout := []; executed := None |}.

Definition dry_args : Args :=
  mkArgs None 1 None None None None true None None None None
    false true false 50 "global" "slurm_output" false.

Definition dry_world : World :=
  Eval vm_compute in
    match main 1 no_wrapper dry_args ["echo hello"] empty_world with
    | Some (_, w') => w'
    | None => empty_world
    end.

(** ** Vocabulary of the further properties *)

(** The lines the reading loop gets to: those before the first sentinel. *)
Fixpoint until_sentinel (input_file : list string) : list string :=
  match input_file with
  | [] => []
  | raw :: rest =>
      if String.eqb (Py.strip raw) "." then [] else raw :: until_sentinel rest
  end.

(** A stripped line that is neither blank nor a comment. *)
Definition is_kept (l : string) : bool :=
  negb (String.eqb l "" || Py.startswith l "#").

(** What the [k]-th attempt adds to the job name. *)
Definition attempt_tag (k : nat) : string :=
  match k with
  | O => ""
  | S _ => "." +:+ Py.str (Z.of_nat k)
  end.

(** The two output-path directives. *)
Definition output_lines (ofh_name : string) (args : Args) : list string :=
  let jobname := Py.drop_last 7 (Py.basename ofh_name) in
  [ "#SBATCH -o " +:+ stdoutdir args +:+ "/" +:+ jobname
      +:+ ".%A.%a.out     # STDOUT";
    "#SBATCH -e " +:+ stdoutdir args +:+ "/" +:+ jobname
      +:+ ".%A.%a.err     # STDERR" ].

(** The dependency directive, if any. *)
Definition hold_lines (args : Args) : exn + list string :=
  if Py.truthy_str (hold args) then
    match munge_hold_arg (default "" (hold args)) with
    | inl e => inl e
    | inr hold_arg =>
        inr ["#SBATCH -d " +:+ hold_arg +:+ "  # hold off waiting for jobs"]
    end
  else inr [].

(** The header from the mail directive on. *)
Definition header_tail (args : Args) : list string :=
  [ if noemail args then "#SBATCH --mail-type=NONE       # no email"
    else "#SBATCH --mail-type=END,FAIL   # notifications for job done & fail" ]
  ++ [""; "set -euo pipefail"; "IFS=$'\n\t'"; ""]
  ++ (if Py.truthy_str (begin args) then [default "" (begin args); ""] else [])
  ++ ["TASK=${TASK:-unset}"; "case " +:+ selector +:+ " in"].

(** Both input arguments given. *)
Definition ambiguous_input (args : Args) : bool :=
  Py.truthy_str (iinput args) && Py.truthy_str (input args).

(** The name [main] asks the writer for. *)
Definition script_name_of (args : Args) : string :=
  job_name_of args +:+ ".sbatch".

(** A script of an earlier run in the way, and a dry run beside it. *)
Definition busy_world : World :=
  {| files := {["msub_stdin.sbatch" := "earlier"]};
     denied := ∅; dirs := ∅; stdout := []; executed := None |}.

Definition busy_dry_world : World :=
  Eval vm_compute in
    match main 2 no_wrapper dry_args ["echo hello"] busy_world with
    | Some (_, w') => w'
    | None => busy_world
    end.

(** * Properties *)

(** ** The model on small inputs *)

Example strip_line : Py.strip ("  ab c  " +:+ Py.chr Py.nl) = "ab c".
Proof. reflexivity. Qed.

Example split_commas : Py.split "," "12,,x," = ["12"; ""; "x"; ""].
Proof. reflexivity. Qed.

Example split_blanks :
  Py.split_ws " single   4 " = ["single"; "4"] ∧ Py.split_ws "  " = [].
Proof. split; reflexivity. Qed.

Example int_literals :
  Py.int " -1_000 " = Some (-1000) ∧ Py.int "007" = Some 7
  ∧ Py.int "1__0" = None ∧ Py.int "" = None ∧ Py.int "+" = None
  ∧ Py.int "x" = None.
Proof. repeat split; reflexivity. Qed.

(** [int] does not skip the separator controls FS..US, which [strip]
    does. *)
Example int_keeps_separator_controls :
  Py.strip (Py.chr (ascii_of_nat 28) +:+ "34") = "34"
  ∧ Py.int (Py.chr (ascii_of_nat 28) +:+ "34") = None
  ∧ ∃ e, munge_hold_arg ("12," +:+ Py.chr (ascii_of_nat 28) +:+ "34") = inl e.
Proof. split; [done|]. split; [done|]. by eexists. Qed.

Example str_integers : Py.str (-120) = "-120" ∧ Py.str 0 = "0".
Proof. split; vm_compute; reflexivity. Qed.

Example paths :
  Py.basename "a/b.c/job.sh" = "job.sh" ∧ Py.basename "a/" = ""
  ∧ Py.endswith "job.sh" ".sh" = true ∧ Py.drop_last 3 "job.sh" = "job".
Proof. repeat split; reflexivity. Qed.

Example next_names :
  next_name "a.b/job" 3 = "a.b/job.3"
  ∧ next_name "a.b/job.x.sh" 3 = "a.b/job.x.3.sh"
  ∧ next_name ".sbatch" 1 = ".1.sbatch".
Proof. repeat split; vm_compute; reflexivity. Qed.

Example job_names :
  job_name_of default_args = "msub_stdin"
  ∧ job_name_of (mkArgs None 1 None None None None false None
                   (Some "runs/align.sh") None None
                   false false false 50 "global" "slurm_output" false)
    = "align"
  ∧ job_name_of (mkArgs None 1 None None None None false None
                   None (Some ".hidden") None
                   false false false 50 "global" "slurm_output" false)
    = "msub.hidden".
Proof. repeat split; vm_compute; reflexivity. Qed.

Example ingest_mixed :
  ingest ["a"; " # c"; ""; " b "; "."; "#SBATCH x"] = Commands ["a"; "b"].
Proof. reflexivity. Qed.

(** The legacy environment string changes the cores, not the memory.
    (The hold value may hold blanks around a number.) *)
Example legacy_environ_header :
  let args := mkArgs None 1 None (Some "single 4") None (Some "12, 34") false
                (Some 3) None None None
                false false false 50 "global" "slurm_output" false in
  let text := (compile "job.1.sbatch" args ["echo a"; "echo b"] "").1 in
  take 9 (drop 2 (Py.split Py.nl text))
  = [ "#SBATCH -a 0-1%3               # array of tasks and max number to run at once";
      "#SBATCH -n 1                   # 1 task per node (fixed for all msub jobs)";
      "#SBATCH -c 4                   # number of cores per task";
      "#SBATCH --mem 6144             # memory pool per task (not per core)";
      "#SBATCH -o slurm_output/job.1.%A.%a.out     # STDOUT";
      "#SBATCH -e slurm_output/job.1.%A.%a.err     # STDERR";
      "#SBATCH -d afterok:12:34  # hold off waiting for jobs";
      "#SBATCH --mail-type=END,FAIL   # notifications for job done & fail";
      "" ]
  ∧ take 5 (drop 15 (Py.split Py.nl text))
    = [ "case ${SLURM_ARRAY_TASK_ID:-$TASK} in";
        "0) echo a"; ";;"; "1) echo b"; ";;" ].
Proof. vm_compute. done. Qed.

(** ** Text *)

Section text.
Implicit Types s t u : string.

Lemma string_app_cons a s t : String a s +:+ t = String a (s +:+ t).
Proof. reflexivity. Qed.

Lemma string_app_nil_l t : "" +:+ t = t.
Proof. reflexivity. Qed.

Lemma string_app_nil_r s : s +:+ "" = s.
Proof.
  induction s as [|a s IH]; [done|]. by rewrite string_app_cons, IH.
Qed.

Lemma string_app_assoc s t u : (s +:+ t) +:+ u = s +:+ t +:+ u.
Proof.
  induction s as [|a s IH]; [done|]. by rewrite !string_app_cons, IH.
Qed.

Lemma string_length_app s t :
  String.length (s +:+ t) = (String.length s + String.length t)%nat.
Proof.
  induction s as [|a s IH]; [done|]. rewrite string_app_cons. cbn.
  by rewrite IH.
Qed.

Lemma string_app_inv_tail s1 s2 t : s1 +:+ t = s2 +:+ t → s1 = s2.
Proof.
  revert s2. induction s1 as [|a s1 IH]; intros [|b s2] H;
    rewrite ?string_app_cons, ?string_app_nil_l in H.
  - done.
  - apply (f_equal String.length) in H. cbn in H.
    rewrite string_length_app in H. lia.
  - apply (f_equal String.length) in H. cbn in H.
    rewrite string_length_app in H. lia.
  - injection H as -> H. f_equal. by apply IH.
Qed.

Lemma contains_app c s t :
  Py.contains c (s +:+ t) = Py.contains c s || Py.contains c t.
Proof.
  induction s as [|a s IH]; [done|]. rewrite string_app_cons. cbn.
  destruct (Ascii.eqb a c); [done|]. apply IH.
Qed.
End text.

(** ** The command ingestor *)

Section ingest_facts.
Implicit Types (pre post acc : list string) (raw : string).

(** A sentinel line ends the loop exactly as the end of the input does. *)
Lemma ingest_loop_sentinel pre raw post acc :
  Py.strip raw = "." →
  (ingest_loop (pre ++ raw :: post) acc).1 = (ingest_loop pre acc).1.
Proof.
  intros Hdot. revert acc.
  induction pre as [|x pre IH]; intros acc; cbn.
  - by rewrite Hdot.
  - destruct (is_directive (Py.strip x)); [done|].
    destruct (String.eqb (Py.strip x) "."); [done|].
    destruct (_ || _); apply IH.
Qed.

(** The loop only appends to the list of commands, and each command it
    appends is the stripped text of a line it was given. *)
Lemma ingest_loop_commands pre acc cl rest :
  ingest_loop pre acc = (Commands cl, rest) →
  ∃ new, cl = acc ++ new ∧ Forall (λ c, ∃ x, x ∈ pre ∧ c = Py.strip x) new.
Proof.
  revert acc. induction pre as [|x pre IH]; intros acc; cbn.
  - intros [= <- <-]. exists []. split; [by rewrite app_nil_r|constructor].
  - destruct (is_directive (Py.strip x)); [done|].
    destruct (String.eqb (Py.strip x) ".").
    { intros [= <- <-]. exists []. split; [by rewrite app_nil_r|constructor]. }
    destruct (_ || _); intros H; apply IH in H as (new & -> & Hnew).
    + exists new. split; [done|].
      eapply Forall_impl; [done|]. intros c (y & ? & ->).
      exists y. split; [by constructor|done].
    + exists (Py.strip x :: new). split; [by rewrite <-(assoc_L (++))|].
      constructor; [exists x; split; [by constructor|done]|].
      eapply Forall_impl; [done|]. intros c (y & ? & ->).
      exists y. split; [by constructor|done].
Qed.

(** A directive line met before any sentinel rejects the input. *)
Lemma ingest_loop_rejects pre raw post acc :
  Forall (λ x, Py.strip x ≠ ".") pre →
  is_directive (Py.strip raw) = true →
  (ingest_loop (pre ++ raw :: post) acc).1 = Rejected.
Proof.
  intros Hpre Hdir. revert acc.
  induction Hpre as [|x pre Hx _ IH]; intros acc; cbn.
  - by rewrite Hdir.
  - destruct (is_directive (Py.strip x)); [done|].
    apply String.eqb_neq in Hx. rewrite Hx.
    destruct (_ || _); apply IH.
Qed.

(** Without a directive line before it, a sentinel ends the loop with a
    command list, and everything after the sentinel is left unread. *)
Lemma ingest_loop_stops pre raw post acc :
  Forall (λ x, is_directive (Py.strip x) = false) pre →
  Py.strip raw = "." →
  ∃ cl rest, ingest_loop (pre ++ raw :: post) acc = (Commands cl, rest)
             ∧ post `suffix_of` rest.
Proof.
  intros Hpre Hdot. revert acc.
  induction Hpre as [|x pre Hx _ IH]; intros acc; cbn.
  - rewrite Hdot. cbn. by exists acc, post.
  - rewrite Hx. destruct (String.eqb (Py.strip x) ".").
    + exists acc, (pre ++ raw :: post). split; [done|].
      by apply suffix_app_r, suffix_cons_r.
    + destruct (_ || _); apply IH.
Qed.
End ingest_facts.

(** C8. A line equal to a single [.] ends the reading loop early and without
    error: the outcome is the one the lines before the sentinel give on
    their own (a command list, unless one of them is a directive line), so
    whatever follows the sentinel is never a command, and each command of
    the result is the stripped text of a line before it. *)
Theorem sentinel_truncates_ingestion (pre post : list string) (raw : string) :
  Py.strip raw = "." →
  ingest (pre ++ raw :: post) = ingest pre
  ∧ (Forall (λ x, is_directive (Py.strip x) = false) pre →
     ∃ cl, ingest (pre ++ raw :: post) = Commands cl)
  ∧ ∀ cl, ingest (pre ++ raw :: post) = Commands cl →
          Forall (λ c, ∃ x, x ∈ pre ∧ c = Py.strip x) cl.
Proof.
  intros Hdot. split; [|split].
  - unfold ingest. by rewrite ingest_loop_sentinel.
  - intros Hpre.
    destruct (ingest_loop_stops pre raw post [] Hpre Hdot) as (cl & rest & E & _).
    exists cl. unfold ingest. by rewrite E.
  - unfold ingest. rewrite ingest_loop_sentinel by done.
    intros cl Hcl. destruct (ingest_loop pre []) as [r rest] eqn:E.
    cbn in Hcl. subst r.
    by apply ingest_loop_commands in E as (new & -> & Hnew).
Qed.

Lemma sentinel_truncates_ingestion_witness :
  ingest (["echo a"; " . "; "echo b"; "#SBATCH -n 2"]) = ingest ["echo a"]
  ∧ ingest ["echo a"] = Commands ["echo a"].
Proof.
  split; [|reflexivity].
  apply (proj1 (sentinel_truncates_ingestion
                  ["echo a"] ["echo b"; "#SBATCH -n 2"] " . " eq_refl)).
Defined.

(** C10. When a lone [.] line comes before any directive-like line, reading
    ends with a command list and not with the rejection: the directive test
    is made on the lines up to the sentinel only, and the lines after the
    sentinel are all left unread, whatever they are. *)
Theorem sentinel_shields_later_directives
    (pre post : list string) (raw : string) :
  Forall (λ x, is_directive (Py.strip x) = false) pre →
  Py.strip raw = "." →
  ingest (pre ++ raw :: post) ≠ Rejected
  ∧ ∃ cl rest, ingest_loop (pre ++ raw :: post) [] = (Commands cl, rest)
               ∧ post `suffix_of` rest.
Proof.
  intros Hpre Hdot.
  destruct (ingest_loop_stops pre raw post [] Hpre Hdot) as (cl & rest & E & Hs).
  split; [|by exists cl, rest].
  unfold ingest. by rewrite E.
Qed.

Lemma sentinel_shields_later_directives_witness :
  ingest ["echo a"; "."; "#SBATCH -n 2"; "#$ -cwd"] ≠ Rejected.
Proof.
  apply (sentinel_shields_later_directives ["echo a"] ["#SBATCH -n 2"; "#$ -cwd"] ".").
  - repeat constructor.
  - reflexivity.
Defined.

(** C7. An input with a line that, once stripped, starts with [#SBATCH ] or
    [#$ -], and with no sentinel line before it, makes the run exit with
    status 1 before the writer is reached: the world, and with it the set of
    files, is left as it was. *)
Theorem directive_input_aborts_before_writing
    (fuel : nat) (env : Env) (args : Args) (w : World)
    (pre post : list string) (raw : string) :
  Forall (λ x, Py.strip x ≠ ".") pre →
  is_directive (Py.strip raw) = true →
  ingest (pre ++ raw :: post) = Rejected
  ∧ main fuel env args (pre ++ raw :: post) w = Some (Exit 1, w).
Proof.
  intros Hpre Hdir.
  assert (ingest (pre ++ raw :: post) = Rejected) as E
    by (by apply ingest_loop_rejects).
  split; [done|]. unfold main. rewrite E.
  destruct (_ && _); [done|]. by destruct (interrupted env _).
Qed.

Lemma directive_input_aborts_before_writing_witness :
  main 3 no_wrapper default_args ["echo a"; "  #SBATCH -n 4 "; "echo b"]
    empty_world
  = Some (Exit 1, empty_world).
Proof.
  apply (directive_input_aborts_before_writing 3 no_wrapper default_args
           empty_world ["echo a"] ["echo b"] "  #SBATCH -n 4 ").
  - repeat constructor. discriminate.
  - reflexivity.
Defined.

(** ** Dependency translation *)

(** C5. A hold value with a colon is returned unchanged. One without is split
    on commas: when every entry reads as an integer the result is [afterok:]
    followed by the integers joined with colons, and [ValueError] is raised
    exactly when some entry does not read as an integer; nothing else is
    ever raised. *)
Theorem munge_hold_arg_spec (hold_arg : string) :
  (Py.contains ":" hold_arg = true → munge_hold_arg hold_arg = inr hold_arg)
  ∧ (Py.contains ":" hold_arg = false →
     ∀ ids, Forall2 (λ j z, Py.int j = Some z) (Py.split "," hold_arg) ids →
            munge_hold_arg hold_arg
            = inr ("afterok:" +:+ Py.join ":" (Py.str <$> ids)))
  ∧ ((∃ e, munge_hold_arg hold_arg = inl e)
     ↔ Py.contains ":" hold_arg = false
       ∧ Exists (λ j, Py.int j = None) (Py.split "," hold_arg))
  ∧ (∀ e, munge_hold_arg hold_arg = inl e → ∃ j, e = ValueError j).
Proof.
  unfold munge_hold_arg.
  destruct (Py.contains ":" hold_arg) eqn:Hc.
  { split; [done|]. split; [done|]. split; [|done].
    split; [by intros [e ?]|by intros [? _]]. }
  split; [done|].
  destruct (mapM Py.int (Py.split "," hold_arg)) as [ids|] eqn:Hm.
  - split; [|split].
    + intros _ ids' H. apply mapM_Some_2 in H. congruence.
    + split; [by intros [e ?]|].
      intros [_ H]. apply mapM_None_2 in H. congruence.
    + done.
  - split; [|split].
    + intros _ ids' H. apply mapM_Some_2 in H. congruence.
    + split; [|by eexists].
      intros _. split; [done|]. by apply mapM_None_1.
    + intros e [= <-]. by eexists.
Qed.

Lemma munge_hold_arg_spec_witness :
  munge_hold_arg "12,34" = inr "afterok:12:34"
  ∧ munge_hold_arg "aftercorr:99" = inr "aftercorr:99"
  ∧ ∃ e, munge_hold_arg "12,x" = inl e.
Proof.
  split; [|split].
  - apply (proj1 (proj2 (munge_hold_arg_spec "12,34")) eq_refl [12; 34]).
    repeat constructor.
  - apply (proj1 (munge_hold_arg_spec "aftercorr:99")). reflexivity.
  - apply (proj1 (proj2 (proj2 (munge_hold_arg_spec "12,x")))).
    split; [reflexivity|]. right. by left.
Defined.

(** ** Running the writer *)

Section writer.
Context {A B : Type}.

Lemma bind_run (m : Out A) (f : A → Out B) buf :
  (m ≫= f) buf
  = match m buf with
    | (buf', inr x) => f x buf'
    | (buf', inl e) => (buf', inl e)
    end.
Proof. reflexivity. Qed.

Lemma appends_ret (x : A) : appends (mret x).
Proof. intros buf. exists "", (inr x). by rewrite string_app_nil_r. Qed.

Lemma appends_lift (r : exn + A) : appends (lift r).
Proof. intros buf. exists "", r. by rewrite string_app_nil_r. Qed.

Lemma appends_bind (m : Out A) (f : A → Out B) :
  appends m → (∀ x, appends (f x)) → appends (m ≫= f).
Proof.
  intros Hm Hf buf. rewrite bind_run.
  destruct (Hm buf) as (p1 & [e|x] & ->).
  - by exists p1, (inl e).
  - destruct (Hf x (buf +:+ p1)) as (p2 & r & ->).
    exists (p1 +:+ p2), r. by rewrite string_app_assoc.
Qed.
End writer.

Lemma unlines_cons l ls : unlines (l :: ls) = l +:+ Py.chr Py.nl +:+ unlines ls.
Proof. reflexivity. Qed.

Lemma unlines_app ls1 ls2 : unlines (ls1 ++ ls2) = unlines ls1 +:+ unlines ls2.
Proof.
  induction ls1 as [|l ls1 IH]; [done|].
  rewrite <-app_comm_cons, !unlines_cons, IH.
  by rewrite !string_app_assoc.
Qed.

Lemma P_run ls buf : P ls buf = (buf +:+ unlines ls, inr ()).
Proof.
  revert buf. induction ls as [|l ls IH]; intros buf.
  - cbn. unfold mret, Out_ret. by rewrite string_app_nil_r.
  - change (P (l :: ls)) with (print l;; P ls).
    rewrite bind_run. unfold print at 1. rewrite IH, unlines_cons.
    by rewrite !string_app_assoc.
Qed.

Lemma appends_P ls : appends (P ls).
Proof. intros buf. rewrite P_run. by eexists _, _. Qed.

Lemma appends_print s : appends (print s).
Proof. intros buf. by eexists _, _. Qed.

(** ** The header *)

(** [write_header] either fails on the legacy environment string before it
    writes anything, or starts by writing [header_top]. *)
Lemma write_header_top ofh_name args task_count buf :
  match cpu_count_of args with
  | inl e => write_header ofh_name args task_count buf = (buf, inl e)
  | inr c =>
      ∃ post r, write_header ofh_name args task_count buf
                = (buf +:+ unlines (header_top args task_count c) +:+ post, r)
  end.
Proof.
  unfold write_header. rewrite bind_run. unfold lift at 1.
  destruct (cpu_count_of args) as [e|c]; [done|].
  change (lift (inr c) buf) with (buf, inr c : exn + Z). cbv beta iota zeta.
  do 5 (rewrite bind_run, P_run; cbv beta iota).
  match goal with
  | |- ∃ post r, ?k ?b = _ =>
      assert (appends k) as Hk
  end.
  { repeat first
      [ apply appends_P | apply appends_ret | apply appends_lift
      | apply appends_bind; [|intros ?]
      | match goal with |- appends (if ?c then _ else _) => destruct c end ]. }
  match goal with
  | |- ∃ post r, ?k ?b = _ => destruct (Hk b) as (post & r & ->)
  end.
  exists post, r. f_equal. unfold header_top.
  by rewrite !unlines_cons, !string_app_assoc.
Qed.

(** The decimal rendering of an integer holds digits and a minus sign only. *)
Lemma digit_pretty_N_char x : Py.digit (pretty_N_char x) ≠ None.
Proof. unfold pretty_N_char. by repeat case_match. Qed.

Lemma contains_cons c a r :
  Py.contains c (String a r) = if Ascii.eqb a c then true else Py.contains c r.
Proof. reflexivity. Qed.

Lemma contains_pretty_N_go c x s :
  Py.digit c = None →
  Py.contains c (pretty_N_go x s) = Py.contains c s.
Proof.
  intros Hc. revert s. induction (N.lt_wf_0 x) as [x _ IH]; intros s.
  assert (x = 0 ∨ 0 < x)%N as [->|?] by lia; [by rewrite pretty_N_go_0|].
  rewrite pretty_N_go_step by done. rewrite IH by (by apply N.div_lt).
  rewrite contains_cons.
  destruct (Ascii.eqb_spec (pretty_N_char (x `mod` 10)) c) as [Heq|]; [|done].
  destruct (digit_pretty_N_char (x `mod` 10)). by rewrite Heq.
Qed.

Lemma contains_pretty_N c (x : N) :
  Py.digit c = None → Py.contains c (pretty x) = false.
Proof.
  intros Hc. unfold pretty, pretty_N. case_decide.
  - rewrite contains_cons.
    destruct (Ascii.eqb_spec "0" c) as [<-|]; [by vm_compute in Hc|done].
  - by rewrite contains_pretty_N_go.
Qed.

Lemma contains_str c z :
  Py.digit c = None → c ≠ "-"%char → Py.contains c (Py.str z) = false.
Proof.
  intros Hc Hm. unfold Py.str, pretty, pretty_Z. destruct z as [|p|p].
  - rewrite contains_cons.
    destruct (Ascii.eqb_spec "0" c) as [<-|]; [by vm_compute in Hc|done].
  - by apply (contains_pretty_N c (Npos p)).
  - rewrite contains_app, contains_cons.
    destruct (Ascii.eqb_spec "-" c) as [<-|]; [done|].
    by apply (contains_pretty_N c (Npos p)).
Qed.

(** C3. The memory directive is the explicit value when one is given; run
    with an explicit [--mem 0] and [--cpu 4] the code writes the default
    24576 instead of the 0 that was given. *)
Lemma explicit_zero_memory_not_emitted :
  let args := mkArgs None 4 (Some 0) None None None false None None None None
                false false false 50 "global" "slurm_output" false in
  mem args = Some 0
  ∧ mem_limit_of args ≠ 0
  ∧ mem_limit_of args = 24576
  ∧ (write_header "job.sbatch" args 1 "").2 = inr ()
  ∧ nth 5 (Py.split Py.nl (write_header "job.sbatch" args 1 "").1) ""
    = "#SBATCH --mem 24576            # memory pool per task (not per core)".
Proof. vm_compute. done. Qed.

(** The value the memory directive gets, case by case, and its place as the
    sixth line of every header that gets past the legacy environment
    string. *)
Theorem memory_directive_value (ofh_name : string) (args : Args)
    (task_count : nat) (buf : string) :
  mem_limit_of args
  = match mem args with
    | Some m => if m =? 0 then 6144 * cpu args else m
    | None => 6144 * cpu args
    end
  ∧ match cpu_count_of args with
    | inl e => write_header ofh_name args task_count buf = (buf, inl e)
    | inr c =>
        ∃ pre post r,
          write_header ofh_name args task_count buf
          = (buf +:+ unlines pre +:+ mem_line (mem_limit_of args)
               +:+ Py.chr Py.nl +:+ post, r)
          ∧ length pre = 5%nat
    end.
Proof.
  split.
  - unfold mem_limit_of, Py.truthy_int. destruct (mem args) as [m|]; [|done].
    by destruct (m =? 0).
  - pose proof (write_header_top ofh_name args task_count buf) as H.
    destruct (cpu_count_of args) as [e|c]; [done|].
    destruct H as (post & r & ->).
    exists (take 5 (header_top args task_count c)), post, r.
    split; [|done]. f_equal. unfold header_top. cbn [take].
    by rewrite !unlines_cons, !string_app_assoc.
Qed.

(** The array directive with an explicit [--max_running_task 0]: no throttle
    suffix is written. *)
Lemma zero_limit_has_no_suffix :
  let args := mkArgs None 1 None None None None false (Some 0) None None None
                false false false 50 "global" "slurm_output" false in
  max_running_task args = Some 0
  ∧ array_param_of args 1 = "0-0"
  ∧ Py.contains "%" (array_param_of args 1) = false
  ∧ Py.endswith (array_param_of args 1) ("%" +:+ Py.str 0) = false
  ∧ nth 2 (Py.split Py.nl (write_header "job.sbatch" args 1 "").1) ""
    = "#SBATCH -a 0-0                 # array of tasks and max number to run at once".
Proof. vm_compute. done. Qed.

(** C4 (amended). For [n] tasks the array directive's value starts with the
    range [0-(n-1)], which is [0-0] for one task. A limit [L] other than 0
    adds the suffix [%L]; with no limit, or with the limit 0, the value is the
    range alone and holds no [%]. The directive is the third line of every
    header that gets past the legacy environment string. *)
Theorem array_directive_value (ofh_name : string) (args : Args)
    (task_count : nat) (buf : string) :
  array_param_of args task_count
  = "0-" +:+ Py.str (Z.of_nat task_count - 1)
      +:+ match max_running_task args with
          | Some L => if L =? 0 then "" else "%" +:+ Py.str L
          | None => ""
          end
  ∧ array_param_of args 1
    = "0-0" +:+ match max_running_task args with
                | Some L => if L =? 0 then "" else "%" +:+ Py.str L
                | None => ""
                end
  ∧ Py.contains "%" (array_param_of args task_count)
    = match max_running_task args with
      | Some L => negb (L =? 0)
      | None => false
      end
  ∧ match cpu_count_of args with
    | inl e => write_header ofh_name args task_count buf = (buf, inl e)
    | inr c =>
        ∃ post r,
          write_header ofh_name args task_count buf
          = (buf +:+ unlines ["#!/bin/bash"; "#"]
               +:+ array_line (array_param_of args task_count)
               +:+ Py.chr Py.nl +:+ post, r)
    end.
Proof.
  assert (∀ n, array_param_of args n
               = "0-" +:+ Py.str (Z.of_nat n - 1)
                   +:+ match max_running_task args with
                       | Some L => if L =? 0 then "" else "%" +:+ Py.str L
                       | None => ""
                       end) as Hform.
  { intros n. unfold array_param_of, Py.truthy_int.
    destruct (max_running_task args) as [L|]; cbn.
    - destruct (L =? 0); cbn; by rewrite ?string_app_assoc, ?string_app_nil_r.
    - by rewrite string_app_nil_r. }
  split; [apply Hform|]. split; [apply Hform|]. split.
  - rewrite Hform, !contains_app.
    rewrite (contains_str "%") by done. cbn [Py.contains orb].
    change (Py.contains "%" "0-") with false. cbn [orb].
    destruct (max_running_task args) as [L|]; [|done].
    destruct (L =? 0); [done|]. rewrite contains_app. done.
  - pose proof (write_header_top ofh_name args task_count buf) as H.
    destruct (cpu_count_of args) as [e|c]; [done|].
    destruct H as (post & r & ->).
    eexists _, r. f_equal. unfold header_top.
    rewrite !unlines_cons, !string_app_assoc. reflexivity.
Qed.

(** ** The dispatch branches and the footer *)

Lemma write_footer_run args buf :
  write_footer args buf = (buf +:+ unlines (footer_lines args), inr ()).
Proof.
  unfold write_footer, footer_lines.
  rewrite bind_run. unfold print at 1. cbv beta iota.
  rewrite bind_run. unfold print at 1. cbv beta iota.
  rewrite bind_run. unfold print at 1. cbv beta iota.
  destruct (Py.truthy_str (final args)).
  - unfold print. f_equal. cbn [app].
    by rewrite !unlines_cons, !string_app_assoc.
  - unfold mret, Out_ret. f_equal. cbn [app].
    by rewrite !unlines_cons, !string_app_assoc.
Qed.

(** What the footer of a plain run holds: an echo and the end of the
    [case], and no [exit]. *)
Lemma default_branch_does_not_exit :
  (write_footer default_args "").1
  = "*) echo " +:+ Py.chr Py.dquote
      +:+ "Unexpected SLURM_ARRAY_TASK_ID=${SLURM_ARRAY_TASK_ID:-$TASK}"
      +:+ Py.chr Py.dquote +:+ Py.chr Py.nl
      +:+ "esac" +:+ Py.chr Py.nl +:+ Py.chr Py.nl
  ∧ occurs "exit" (write_footer default_args "").1 = false.
Proof. vm_compute. done. Qed.

(** C2 (amended). The footer opens with the default branch, which echoes
    [Unexpected SLURM_ARRAY_TASK_ID=] followed by the value of the selector,
    and closes the [case] right after it; the branch holds no [exit]. What
    follows is an empty line and the [--final] text, when there is one. *)
Theorem footer_default_branch (args : Args) (buf : string) :
  write_footer args buf
  = (buf +:+ default_branch +:+ Py.chr Py.nl +:+ "esac" +:+ Py.chr Py.nl
       +:+ Py.chr Py.nl
       +:+ (if Py.truthy_str (final args)
            then default "" (final args) +:+ Py.chr Py.nl else ""),
     inr ())
  ∧ default_branch
    = "*) echo " +:+ Py.chr Py.dquote +:+ "Unexpected SLURM_ARRAY_TASK_ID="
        +:+ selector +:+ Py.chr Py.dquote
  ∧ occurs "exit" default_branch = false.
Proof.
  split; [|by vm_compute].
  rewrite write_footer_run. unfold footer_lines. f_equal.
  destruct (Py.truthy_str (final args)); cbn [app];
    by rewrite !unlines_cons, ?string_app_assoc.
Qed.

Lemma write_commands_run args i command_list buf :
  write_commands args i command_list buf
  = (buf +:+ unlines (imap (λ k, branch_text (i + k)) command_list), inr ()).
Proof.
  revert i buf. induction command_list as [|c rest IH]; intros i buf.
  - cbn. unfold mret, Out_ret. by rewrite string_app_nil_r.
  - change (write_commands args i (c :: rest))
      with (write_command args c i;; write_commands args (S i) rest).
    rewrite bind_run. unfold write_command, print at 1. cbv beta iota.
    rewrite IH, imap_cons, unlines_cons, Nat.add_0_r, !string_app_assoc.
    do 5 f_equal. apply imap_ext. intros k x _. cbn.
    by rewrite Nat.add_succ_r.
Qed.

Lemma compile_run ofh_name args command_list buf :
  compile ofh_name args command_list buf
  = match write_header ofh_name args (length command_list) buf with
    | (text, inr _) =>
        (text +:+ unlines (imap branch_text command_list)
           +:+ unlines (footer_lines args), inr ())
    | (text, inl e) => (text, inl e)
    end.
Proof.
  unfold compile. rewrite bind_run.
  destruct (write_header _ _ _ _) as [text [e|[]]]; [done|].
  rewrite bind_run, (write_commands_run args 0). cbv beta iota.
  by rewrite write_footer_run, string_app_assoc.
Qed.


(** ** Splitting and joining *)

Section split.
Implicit Types (c d : ascii) (s t : string).

Lemma split_cons c a s :
  Py.split c (String a s)
  = if Ascii.eqb a c then "" :: Py.split c s
    else match Py.split c s with
         | [] => [Py.chr a]
         | w :: ws => String a w :: ws
         end.
Proof. reflexivity. Qed.

Lemma split_nonempty c s : ∃ w ws, Py.split c s = w :: ws.
Proof.
  destruct s as [|a s]; [by exists "", []|]. rewrite split_cons.
  destruct (Ascii.eqb a c); [by eexists _, _|].
  destruct (Py.split c s); by eexists _, _.
Qed.

(** Without the separator there is one segment. *)
Lemma split_none c s : Py.contains c s = false → Py.split c s = [s].
Proof.
  induction s as [|a s IH]; [done|]. rewrite contains_cons, split_cons.
  destruct (Ascii.eqb a c); [done|]. intros H. by rewrite IH.
Qed.

(** A text holding the separator, cut at its last occurrence. *)
Lemma split_last_sep c s :
  Py.contains c s = true →
  ∃ stem ext, s = stem +:+ Py.chr c +:+ ext
              ∧ Py.contains c ext = false
              ∧ Py.split c s = Py.split c stem ++ [ext].
Proof.
  induction s as [|a s IH]; [done|]. rewrite contains_cons.
  destruct (Py.contains c s) eqn:Hs.
  - intros _. destruct IH as (stem & ext & -> & Hext & Hsplit); [done|].
    exists (String a stem), ext. split; [done|]. split; [done|].
    rewrite !split_cons, Hsplit.
    destruct (Ascii.eqb a c); [done|].
    by destruct (split_nonempty c stem) as (w & ws & ->).
  - destruct (Ascii.eqb_spec a c) as [->|]; [|done]. intros _.
    exists "", s. split; [done|]. split; [done|].
    rewrite split_cons, Ascii.eqb_refl. by rewrite split_none.
Qed.

Lemma join_cons sep s t ts :
  Py.join sep (s :: t :: ts) = s +:+ sep +:+ Py.join sep (t :: ts).
Proof. reflexivity. Qed.

Lemma join_app sep ss t ts :
  ss ≠ [] →
  Py.join sep (ss ++ t :: ts) = Py.join sep ss +:+ sep +:+ Py.join sep (t :: ts).
Proof.
  induction ss as [|s ss IH]; [done|]. intros _.
  destruct ss as [|s' ss]; [done|].
  rewrite <-!app_comm_cons, !join_cons, string_app_assoc.
  f_equal. rewrite string_app_assoc. f_equal.
  rewrite app_comm_cons. by apply IH.
Qed.

(** Joining the segments gives the text back. *)
Lemma join_split c s : Py.join (Py.chr c) (Py.split c s) = s.
Proof.
  induction s as [|a s IH]; [done|]. rewrite split_cons.
  destruct (split_nonempty c s) as (w & ws & E). rewrite E in *.
  destruct (Ascii.eqb_spec a c) as [->|].
  - by rewrite join_cons, IH.
  - destruct ws as [|w' ws]; [by rewrite <-IH|].
    rewrite join_cons in *. by rewrite string_app_cons, IH.
Qed.

(** The segment put in the middle can be read back from the joined text. *)
Lemma join_mid_inj sep ss ts x y :
  Py.join sep (ss ++ x :: ts) = Py.join sep (ss ++ y :: ts) → x = y.
Proof.
  induction ss as [|s ss IH].
  - destruct ts as [|t ts]; [done|]. cbn [app]. rewrite !join_cons.
    apply string_app_inv_tail.
  - destruct ss as [|s' ss]; cbn [app] in *; rewrite !join_cons;
      intros H; do 2 apply (inj (String.app _)) in H; by apply IH.
Qed.

(** What the base name holds, the path holds. *)
Lemma contains_last_split c d s :
  Py.contains c (List.last (Py.split d s) "") = true →
  Py.contains c s = true.
Proof.
  induction s as [|a s IH]; [done|]. rewrite split_cons, contains_cons.
  destruct (split_nonempty d s) as (w & ws & E). rewrite E in *.
  destruct (Ascii.eqb a c) eqn:Hac; [done|].
  destruct (Ascii.eqb a d); [done|].
  destruct ws as [|w' ws]; [|done].
  cbn [List.last]. rewrite contains_cons, Hac. apply IH.
Qed.
End split.

(** ** The collision-safe writer *)

Section writer_names.
Implicit Types (filename : string) (c : Z).

Lemma next_name_plain filename c :
  Py.contains "." (Py.basename filename) = false →
  next_name filename c = filename +:+ "." +:+ Py.str c.
Proof. intros H. unfold next_name. by rewrite H. Qed.

Lemma next_name_ext filename :
  Py.contains "." (Py.basename filename) = true →
  ∃ stem ext,
    filename = stem +:+ "." +:+ ext
    ∧ Py.contains "." ext = false
    ∧ ∀ c, next_name filename c = stem +:+ "." +:+ Py.str c +:+ "." +:+ ext.
Proof.
  intros H. unfold next_name. rewrite H.
  apply contains_last_split, split_last_sep in H
    as (stem & ext & -> & Hext & Hsplit).
  exists stem, ext. split; [done|]. split; [done|]. intros c.
  rewrite Hsplit, removelast_last, length_app. cbn [length].
  replace (length (Py.split "." stem) + 1 - 1)%nat
    with (length (Py.split "." stem)) by lia.
  rewrite drop_app_length.
  change ([Py.str c] ++ [ext]) with [Py.str c; ext].
  destruct (split_nonempty "." stem) as (x & xs & E).
  rewrite join_app by (by rewrite E).
  change (Py.join "." (Py.split "." stem))
    with (Py.join (Py.chr ".") (Py.split "." stem)).
  by rewrite join_split.
Qed.

(** Different counters give different names. *)
Lemma next_name_inj filename : Inj (=) (=) (next_name filename).
Proof.
  intros a b H. unfold next_name in H.
  destruct (Py.contains "." (Py.basename filename)).
  - apply join_mid_inj in H. by apply (inj pretty) in H.
  - do 2 apply (inj (String.app _)) in H. by apply (inj pretty) in H.
Qed.
End writer_names.

Section writer_loop.
Implicit Types (w : World) (filename : string) (k : nat).

Lemma open_x_inv w path r :
  open_x w path = r →
  match r with
  | inl FileExistsError => is_Some (files w !! path)
  | inl e => (files w !! path = None ∧ (path ∈ denied w)
              ∧ e = PermissionError path)
  | inr w' => (files w !! path = None ∧ (path ∉ denied w)
               ∧ w' = with_files w (<[path := ""]> (files w)))
  end.
Proof.
  intros <-. unfold open_x. destruct (files w !! path); [by eexists|].
  by case_decide.
Qed.

Lemma candidate_succ filename k :
  next_name filename (Z.of_nat k + 1) = candidate filename (S k).
Proof. unfold candidate. f_equal. lia. Qed.

(** What the loop has seen when it ends. *)
Lemma open_sesame_loop_ends fuel w filename k r :
  open_sesame_loop fuel w filename (candidate filename k) (Z.of_nat k)
  = Some r →
  ∃ k', (k ≤ k')%nat
    ∧ (∀ j, (k ≤ j < k')%nat → is_Some (files w !! candidate filename j))
    ∧ attempt w (candidate filename k') = r
    ∧ r ≠ inl FileExistsError.
Proof.
  revert k. induction fuel as [|fuel IH]; intros k; [done|]. cbn.
  destruct (open_x w (candidate filename k)) as [e|w'] eqn:E.
  - destruct (decide (e = FileExistsError)) as [->|Hne].
    + rewrite candidate_succ.
      replace (Z.of_nat k + 1) with (Z.of_nat (S k)) by lia.
      intros (k' & Hle & Hbusy & Hopen & Hr)%IH.
      exists k'. split; [lia|]. split; [|done].
      intros j Hj. destruct (decide (j = k)) as [->|].
      * by apply open_x_inv in E.
      * apply Hbusy. lia.
    + intros Hr. exists k. split; [done|]. split; [intros; lia|].
      unfold attempt. rewrite E. destruct e; naive_solver.
  - intros [= <-]. exists k. split; [done|]. split; [intros; lia|].
    unfold attempt. by rewrite E.
Qed.

(** A loop that is still running has met a file at every name it tried. *)
Lemma open_sesame_loop_running fuel w filename k :
  open_sesame_loop fuel w filename (candidate filename k) (Z.of_nat k)
  = None →
  ∀ j, (k ≤ j < k + fuel)%nat → is_Some (files w !! candidate filename j).
Proof.
  revert k. induction fuel as [|fuel IH]; intros k; [intros; lia|]. cbn.
  destruct (open_x w (candidate filename k)) as [e|w'] eqn:E; [|done].
  destruct e; try done.
  rewrite candidate_succ.
  replace (Z.of_nat k + 1) with (Z.of_nat (S k)) by lia.
  intros Hrun j Hj. destruct (decide (j = k)) as [->|].
  - by apply open_x_inv in E.
  - apply (IH (S k)); [done|lia].
Qed.

(** There are only so many files: the loop ends. *)
Lemma open_sesame_loop_total fuel w filename :
  (size (files w) + 1 < fuel)%nat →
  is_Some (open_sesame_loop fuel w filename (candidate filename 0) 0).
Proof.
  intros Hfuel.
  destruct (open_sesame_loop fuel w filename (candidate filename 0) 0)
    as [r|] eqn:E; [by eexists|].
  pose proof (open_sesame_loop_running fuel w filename 0 E) as Hrun.
  set (names := (λ j, next_name filename (Z.of_nat j))
                  <$> seq 1 (S (size (files w)))).
  assert (NoDup names) as Hnodup.
  { apply NoDup_fmap_2; [|apply NoDup_seq].
    intros a b H. apply next_name_inj in H. lia. }
  assert (list_to_set names ⊆ dom (files w)) as Hsub.
  { intros p [j [-> Hj%elem_of_seq]]%elem_of_list_to_set%list_elem_of_fmap.
    apply elem_of_dom. destruct j as [|j]; [lia|].
    apply (Hrun (S j)). lia. }
  apply subseteq_size in Hsub.
  rewrite size_list_to_set, size_dom in Hsub by done.
  unfold names in Hsub. rewrite length_fmap, length_seq in Hsub. lia.
Qed.
End writer_loop.

(** C6. The writer never truncates or overwrites a file. It tries the desired
    name, then the names with the counter 1, 2, 3, ... put before the last
    dot-separated segment of the desired name (appended after a dot when the
    base name has no dot), and stops at the first name that is free: either
    the file is created there, empty, every file that existed keeping its
    text, or the creation is refused there and that error is the result.
    With more attempts allowed than there are files the loop always ends. *)
Theorem open_sesame_never_overwrites
    (fuel : nat) (w : World) (filename : string) :
  (size (files w) + 1 < fuel)%nat →
  (∃ k r,
      open_sesame fuel w filename = Some r
      ∧ (∀ j, (j < k)%nat → is_Some (files w !! candidate filename j))
      ∧ files w !! candidate filename k = None
      ∧ match r with
        | inr (path, w') =>
            path = candidate filename k
            ∧ (path ∉ denied w)
            ∧ w' = with_files w (<[path := ""]> (files w))
            ∧ ∀ p text, files w !! p = Some text → files w' !! p = Some text
        | inl e =>
            e = PermissionError (candidate filename k)
            ∧ (candidate filename k ∈ denied w)
        end)
  ∧ candidate filename 0 = filename
  ∧ (Py.contains "." (Py.basename filename) = false →
     ∀ k, candidate filename (S k)
          = filename +:+ "." +:+ Py.str (Z.of_nat (S k)))
  ∧ (Py.contains "." (Py.basename filename) = true →
     ∃ stem ext,
       filename = stem +:+ "." +:+ ext
       ∧ Py.contains "." ext = false
       ∧ ∀ k, candidate filename (S k)
              = stem +:+ "." +:+ Py.str (Z.of_nat (S k)) +:+ "." +:+ ext).
Proof.
  intros Hfuel. split; [|split; [done|split]].
  - destruct (open_sesame_loop_total fuel w filename Hfuel) as [r Hr].
    destruct (open_sesame_loop_ends fuel w filename 0 r Hr)
      as (k & _ & Hbusy & Hopen & Hne).
    exists k, r. split; [done|].
    split; [intros j Hj; apply Hbusy; lia|].
    unfold attempt in Hopen.
    destruct (open_x w (candidate filename k)) as [e|w'] eqn:E;
      apply open_x_inv in E; subst r.
    + destruct e; try done; by destruct E as (? & ? & [= ->]).
    + destruct E as (Hfree & Hden & ->). split; [done|].
      split; [done|]. split; [done|]. split; [done|].
      intros p text Hp. cbn. rewrite lookup_insert_ne; [done|].
      intros <-. congruence.
  - intros H k. by apply next_name_plain.
  - intros H. destruct (next_name_ext filename H) as (stem & ext & ? & ? & Hn).
    exists stem, ext. split; [done|]. split; [done|]. intros k. apply Hn.
Qed.

Lemma open_sesame_never_overwrites_witness :
  ∃ k r,
    open_sesame 4 two_scripts "job.sbatch" = Some r
    ∧ (∀ j, (j < k)%nat →
            is_Some (files two_scripts !! candidate "job.sbatch" j))
    ∧ files two_scripts !! candidate "job.sbatch" k = None
    ∧ match r with
      | inr (path, w') =>
          path = candidate "job.sbatch" k
          ∧ (path ∉ denied two_scripts)
          ∧ w' = with_files two_scripts (<[path := ""]> (files two_scripts))
          ∧ ∀ p text, files two_scripts !! p = Some text →
                      files w' !! p = Some text
      | inl e =>
          e = PermissionError (candidate "job.sbatch" k)
          ∧ (candidate "job.sbatch" k ∈ denied two_scripts)
      end.
Proof.
  apply (open_sesame_never_overwrites 4 two_scripts "job.sbatch").
  vm_compute. lia.
Defined.

Example second_run_name :
  match open_sesame 3 (with_files two_scripts {["job.sbatch" := "first"]})
          "job.sbatch" with
  | Some (inr (path, w')) => Some (path, files w' !! "job.sbatch")
  | _ => None
  end = Some ("job.1.sbatch", Some "first").
Proof. vm_compute. reflexivity. Qed.

Example third_run_name :
  match open_sesame 4 two_scripts "job.sbatch" with
  | Some (inr (path, w')) =>
      Some (path, files w' !! "job.sbatch", files w' !! "job.1.sbatch",
            files w' !! path)
  | _ => None
  end = Some ("job.2.sbatch", Some "first", Some "second", Some "").
Proof. vm_compute. reflexivity. Qed.


(** ** The submission launcher *)

Lemma preview_line_shape args sbatch script_file :
  preview_line args sbatch script_file
  = "mkdir -p " +:+ stdoutdir args +:+ " ; " +:+ sbatch
      +:+ " -p " +:+ queue args +:+ " --nice=" +:+ Py.str (priority args)
      +:+ (if sync args then " --wait" else "") +:+ " " +:+ script_file.
Proof.
  unfold preview_line, job_flags_of.
  destruct (sync args); cbn [app]; rewrite !join_cons;
    change (Py.join " " [script_file]) with script_file;
    by rewrite ?string_app_assoc.
Qed.

Lemma open_sesame_frame fuel w filename path w' :
  open_sesame fuel w filename = Some (inr (path, w')) →
  w' = with_files w (<[path := ""]> (files w)).
Proof.
  intros H. apply (open_sesame_loop_ends fuel w filename 0) in H
    as (k & _ & _ & H & _).
  unfold attempt in H.
  destruct (open_x w (candidate filename k)) as [e|w1] eqn:E; [done|].
  injection H as <- <-. by apply open_x_inv in E as (_ & _ & ->).
Qed.

(** A run that stops before the launcher has no such effect. *)
Lemma run_effects_stopped env args w w' o :
  o = Exit 1 ∨ (∃ e, o = Uncaught e) →
  dirs w' = dirs w → executed w' = executed w → stdout w' = stdout w →
  run_effects env args w w' o.
Proof.
  intros Ho Hd He Hs. unfold run_effects.
  destruct (nosubmit args).
  - do 2 (split; [done|]).
    split; [by destruct Ho as [->|[e ->]]|done].
  - split; [done|].
    split; [by destruct Ho as [->|[e ->]]|].
    split; [by left|].
    split; [by destruct Ho as [->|[e ->]]|done].
Qed.

Lemma preview_line_flags args sbatch script_file :
  preview_line args sbatch script_file
  = "mkdir -p " +:+ stdoutdir args +:+ " ; " +:+ sbatch
      +:+ " " +:+ Py.join " " (job_flags_of args) +:+ " " +:+ script_file.
Proof.
  unfold preview_line, job_flags_of.
  destruct (sync args); cbn [app]; rewrite !join_cons;
    rewrite ?string_app_assoc; reflexivity.
Qed.

Lemma makedirs_inv w path w1 :
  makedirs w path = inr w1 →
  files w1 = files w ∧ denied w1 = denied w ∧ dirs w1 = {[path]} ∪ dirs w
  ∧ stdout w1 = stdout w ∧ executed w1 = executed w.
Proof.
  unfold makedirs. destruct (files w !! path); [done|].
  case_decide; [done|]. by intros [= <-].
Qed.

Lemma launch_effects env args script_file w1 w w' o :
  launch env args script_file w1 = (o, w') →
  dirs w1 = dirs w → executed w1 = executed w → stdout w1 = stdout w →
  is_Some (files w1 !! script_file) →
  run_effects env args w w' o.
Proof.
  intros H Hd He Hs Hf. unfold launch in H.
  destruct (if hard_sync args then find_sbatch_wait env else inr "sbatch")
    as [e|sbatch] eqn:Hres.
  { injection H as <- <-. apply run_effects_stopped; eauto. }
  assert (resolved env args sbatch) as Hresolved.
  { unfold resolved. destruct (hard_sync args); [done|]. by injection Hres. }
  unfold run_effects.
  destruct (nosubmit args).
  { injection H as <- <-. cbn. by do 3 (split; [done|]). }
  destruct (makedirs w1 (stdoutdir args)) as [e|w2] eqn:Hmk.
  { injection H as <- <-. do 2 (split; [done|]). split; [by left|]. done. }
  apply makedirs_inv in Hmk as (Hf2 & _ & Hd2 & Hs2 & He2).
  destruct (exec_error env sbatch) as [e|]; injection H as <- <-; cbn.
  - split; [congruence|]. split; [done|].
    split; [right; congruence|]. split; [done|]. congruence.
  - split; [congruence|]. split; [done|].
    split; [right; congruence|]. split; [|done]. intros _.
    exists sbatch, script_file. split; [done|].
    split; [by rewrite Hf2|]. split; [congruence|done].
Qed.

Lemma main_run_effects fuel env args input_file w o w' :
  main fuel env args input_file w = Some (o, w') →
  run_effects env args w w' o.
Proof.
  unfold main. destruct (_ && _).
  { intros [= <- <-]. apply run_effects_stopped; eauto. }
  destruct (interrupted env input_file).
  { intros [= <- <-]. apply run_effects_stopped; eauto. }
  destruct (ingest input_file) as [|[|c command_list]].
  { intros [= <- <-]. apply run_effects_stopped; eauto. }
  { intros [= <- <-]. apply run_effects_stopped; eauto. }
  destruct (open_sesame _ _ _) as [[e|[script_file w1]]|] eqn:Hopen; [| |done].
  { intros [= <- <-]. apply run_effects_stopped; eauto. }
  apply open_sesame_frame in Hopen. subst w1.
  destruct (compile _ _ _ _) as [text [e|[]]].
  { intros [= <- <-]. apply run_effects_stopped; eauto. }
  intros [= H]. apply (launch_effects _ _ _ _ _ _ _ H); try done.
  cbn. by rewrite lookup_insert_eq.
Qed.

(** C9. In a dry run the output directory is never created and the process
    is never replaced, whatever the outcome; and a dry run whose input gives
    commands, whose script file is created and whose header is written
    returns after printing one line: [mkdir -p], the output directory, [;],
    the resolved submitter, its flags and the path of the script just
    written. A live run prints nothing; the directory is created and the
    process replaced in a live run only, the process with the resolved
    submitter, its flags and the script. *)
Theorem dry_run_only_previews
    (fuel : nat) (env : Env) (args : Args) (input_file : list string)
    (w : World) :
  (∀ o w', main fuel env args input_file w = Some (o, w') →
     if nosubmit args then
       dirs w' = dirs w ∧ executed w' = executed w ∧ o ≠ Replaced
       ∧ (o ≠ Returned → stdout w' = stdout w)
     else
       stdout w' = stdout w ∧ o ≠ Returned
       ∧ (dirs w' = dirs w ∨ dirs w' = {[stdoutdir args]} ∪ dirs w)
       ∧ (o = Replaced →
          ∃ sbatch script_file,
            resolved env args sbatch
            ∧ is_Some (files w' !! script_file)
            ∧ dirs w' = {[stdoutdir args]} ∪ dirs w
            ∧ executed w'
              = Some ([sbatch] ++ job_flags_of args ++ [script_file]))
       ∧ (o ≠ Replaced → executed w' = executed w))
  ∧ (nosubmit args = true →
     Py.truthy_str (iinput args) && Py.truthy_str (input args) = false →
     interrupted env input_file = false →
     ∀ c cl script_file w1 sbatch,
       ingest input_file = Commands (c :: cl) →
       open_sesame fuel w (job_name_of args +:+ ".sbatch")
       = Some (inr (script_file, w1)) →
       (compile script_file args (c :: cl) "").2 = inr () →
       resolved env args sbatch →
       ∃ w', main fuel env args input_file w = Some (Returned, w')
             ∧ stdout w' = stdout w ++ [preview_line args sbatch script_file]
             ∧ preview_line args sbatch script_file
               = "mkdir -p " +:+ stdoutdir args +:+ " ; " +:+ sbatch
                   +:+ " " +:+ Py.join " " (job_flags_of args)
                   +:+ " " +:+ script_file
             ∧ files w' !! script_file
               = Some (compile script_file args (c :: cl) "").1
             ∧ dirs w' = dirs w ∧ executed w' = executed w).
Proof.
  split; [intros o w' H; by apply (main_run_effects _ _ _ _ _ _ _ H)|].
  intros Hdry Hamb Hint c cl script_file w1 sbatch Hcl Hopen Hc Hres.
  unfold main. rewrite Hamb, Hint, Hcl, Hopen.
  apply open_sesame_frame in Hopen. subst w1.
  destruct (compile script_file args (c :: cl) "") as [text r].
  cbn [snd fst] in *. subst r. unfold launch. rewrite Hdry.
  assert ((if hard_sync args then find_sbatch_wait env else inr "sbatch")
          = inr sbatch) as ->.
  { unfold resolved in Hres. by destruct (hard_sync args); [|subst]. }
  eexists. split; [reflexivity|]. cbn.
  split; [done|]. split; [apply preview_line_flags|].
  split; [by rewrite lookup_insert_eq|]. done.
Qed.

Lemma dry_run_only_previews_witness :
  ∃ w', main 1 no_wrapper dry_args ["echo hello"] empty_world
        = Some (Returned, w')
        ∧ stdout w'
          = ["mkdir -p slurm_output ; sbatch -p global --nice=50 --wait msub_stdin.sbatch"]
        ∧ dirs w' = ∅ ∧ executed w' = None.
Proof.
  destruct (proj2 (dry_run_only_previews 1 no_wrapper dry_args ["echo hello"]
                     empty_world)
              eq_refl eq_refl eq_refl "echo hello" [] "msub_stdin.sbatch"
              (with_files empty_world {["msub_stdin.sbatch" := ""]}) "sbatch")
    as (w' & Hmain & Hout & _ & _ & Hd & He);
    [vm_compute; reflexivity..|].
  exists w'. split; [exact Hmain|]. split; [exact Hout|].
  split; [exact Hd|exact He].
Defined.

Example live_run :
  match main 1 no_wrapper default_args ["echo hello"] empty_world with
  | Some (o, w') => Some (o, elements (dirs w'), stdout w', executed w')
  | None => None
  end
  = Some (Replaced, ["slurm_output"], [],
          Some ["sbatch"; "-p"; "global"; "--nice=50"; "msub_stdin.sbatch"]).
Proof. vm_compute. reflexivity. Qed.

(** A live run with no [sbatch] to start: the directory is there, the
    process is not replaced. *)
Example live_run_without_sbatch :
  match main 1 {| which_finds := false; argv0_abspath_dir := "";
                  argv0_realpath_dir := ""; is_executable_file := λ _, false;
                  interrupt_at := None;
                  exec_error := λ p, Some (FileNotFoundError p) |}
          default_args ["echo hello"] empty_world with
  | Some (o, w') => Some (o, elements (dirs w'), stdout w', executed w')
  | None => None
  end
  = Some (Uncaught (FileNotFoundError "sbatch"), ["slurm_output"], [], None).
Proof. vm_compute. reflexivity. Qed.

(** * Further properties *)

(** ** Stripping *)

Section strip_facts.
Implicit Types (s : string) (a : ascii).

Lemma lstrip_form s :
  Py.lstrip s = "" ∨ ∃ a r, Py.lstrip s = String a r ∧ Py.isspace a = false.
Proof.
  induction s as [|a s IH]; [by left|]. cbn.
  destruct (Py.isspace a) eqn:Ha; [done|]. right. by exists a, s.
Qed.

Lemma rstrip_cons a r :
  Py.rstrip (String a r)
  = match Py.rstrip r with
    | "" => if Py.isspace a then "" else Py.chr a
    | t => String a t
    end.
Proof. reflexivity. Qed.

Lemma rstrip_idem s : Py.rstrip (Py.rstrip s) = Py.rstrip s.
Proof.
  induction s as [|a s IH]; [done|]. rewrite rstrip_cons.
  destruct (Py.rstrip s) as [|b t] eqn:E.
  - destruct (Py.isspace a) eqn:Ha; [done|].
    unfold Py.chr. rewrite rstrip_cons. cbn. by rewrite Ha.
  - rewrite rstrip_cons. by rewrite IH.
Qed.

Lemma rstrip_keeps_head a r :
  Py.isspace a = false → ∃ r', Py.rstrip (String a r) = String a r'.
Proof.
  intros Ha. rewrite rstrip_cons, Ha.
  destruct (Py.rstrip r); by eexists.
Qed.

(** Stripping twice is stripping once. *)
Lemma strip_idem s : Py.strip (Py.strip s) = Py.strip s.
Proof.
  unfold Py.strip. destruct (lstrip_form s) as [->|(a & r & -> & Ha)]; [done|].
  destruct (rstrip_keeps_head a r Ha) as [r' E].
  rewrite <-(rstrip_idem (String a r)) at 2. f_equal.
  rewrite E. cbn. by rewrite Ha.
Qed.
End strip_facts.

(** ** More on the command ingestor *)

Lemma directive_not_sentinel l :
  is_directive l = true → String.eqb l "." = false.
Proof.
  intros H. destruct (String.eqb_spec l ".") as [->|]; [done|done].
Qed.

Lemma ingest_loop_closed_form input_file acc :
  (ingest_loop input_file acc).1
  = if existsb is_directive (Py.strip <$> until_sentinel input_file)
    then Rejected
    else Commands
           (acc ++ List.filter is_kept (Py.strip <$> until_sentinel input_file)).
Proof.
  revert acc. induction input_file as [|raw rest IH]; intros acc; cbn.
  - by rewrite app_nil_r.
  - destruct (is_directive (Py.strip raw)) eqn:Hd.
    + rewrite (directive_not_sentinel _ Hd). cbn. by rewrite Hd.
    + destruct (String.eqb (Py.strip raw) "."); cbn.
      * by rewrite app_nil_r.
      * rewrite Hd. cbn. unfold is_kept at 1.
        destruct (_ || _); cbn; rewrite IH; [done|].
        by rewrite <-app_assoc.
Qed.

Lemma until_sentinel_not_sentinel input_file x :
  x ∈ until_sentinel input_file → Py.strip x ≠ ".".
Proof.
  induction input_file as [|raw rest IH]; cbn; [by intros ?%elem_of_nil|].
  destruct (String.eqb_spec (Py.strip raw) "."); [by intros ?%elem_of_nil|].
  intros [->|?]%elem_of_cons; auto.
Qed.

Lemma filter_until_sentinel_sublist (f : string → bool) input_file :
  List.filter f (Py.strip <$> until_sentinel input_file)
    `sublist_of` (Py.strip <$> input_file).
Proof.
  induction input_file as [|raw rest IH]; cbn; [done|].
  destruct (String.eqb (Py.strip raw) "."); cbn; [apply sublist_nil_l|].
  destruct (f (Py.strip raw)); by constructor.
Qed.

(** X1. The reading loop as a whole: the input is rejected exactly when a
    directive-like line stands among the lines before the first sentinel;
    otherwise the commands are those lines, stripped, without the blank ones
    and the comments, in their order. *)
Theorem ingest_closed_form (input_file : list string) :
  ingest input_file
  = if existsb is_directive (Py.strip <$> until_sentinel input_file)
    then Rejected
    else Commands
           (List.filter is_kept (Py.strip <$> until_sentinel input_file)).
Proof. unfold ingest. by rewrite ingest_loop_closed_form. Qed.

(** X2. What every ingested command is: the stripped text of an input line,
    free of surrounding blanks, not empty, not a comment, not the sentinel
    and not a directive; the commands come in the order of their lines. *)
Theorem ingested_commands_invariant
    (input_file command_list : list string) :
  ingest input_file = Commands command_list →
  Forall (λ c, Py.strip c = c ∧ c ≠ "" ∧ c ≠ "."
               ∧ Py.startswith c "#" = false ∧ is_directive c = false)
         command_list
  ∧ command_list `sublist_of` (Py.strip <$> input_file).
Proof.
  unfold ingest. rewrite ingest_loop_closed_form.
  destruct (existsb _ _) eqn:Hex; [done|]. intros [= <-]. split.
  - apply Forall_forall. intros c Hc%list_elem_of_In%filter_In.
    destruct Hc as [Hin Hkept].
    apply list_elem_of_In, list_elem_of_fmap in Hin as (x & -> & Hx).
    unfold is_kept in Hkept. apply negb_true_iff, orb_false_iff in Hkept
      as [Hne Hcom].
    split; [apply strip_idem|]. split; [by apply String.eqb_neq|].
    split; [by eapply until_sentinel_not_sentinel|]. split; [done|].
    destruct (is_directive (Py.strip x)) eqn:Hd; [|done].
    assert (existsb is_directive (Py.strip <$> until_sentinel input_file)
            = true); [|congruence].
    apply existsb_exists. exists (Py.strip x). split; [|done].
    by apply list_elem_of_In, list_elem_of_fmap_2.
  - apply filter_until_sentinel_sublist.
Qed.

Lemma ingested_commands_invariant_witness :
  Forall (λ c, Py.strip c = c ∧ c ≠ "" ∧ c ≠ "."
               ∧ Py.startswith c "#" = false ∧ is_directive c = false)
         ["echo a"; "echo  b"]
  ∧ ["echo a"; "echo  b"]
      `sublist_of` (Py.strip <$> [" echo a "; "# note"; ""; "echo  b"; "."; "x"]).
Proof.
  apply (ingested_commands_invariant
           [" echo a "; "# note"; ""; "echo  b"; "."; "x"]).
  reflexivity.
Defined.

(** ** The job name and the names of the script *)

(** X3. The job name is never empty and never starts with a dot, whatever
    the arguments. *)
Theorem job_name_never_hidden (args : Args) :
  job_name_of args ≠ "" ∧ Py.startswith (job_name_of args) "." = false.
Proof.
  unfold job_name_of.
  set (job_name := if String.eqb _ _ then _ else _).
  destruct (String.eqb job_name "" || Py.startswith job_name ".") eqn:E.
  - done.
  - apply orb_false_iff in E as [E1 E2]. by apply String.eqb_neq in E1.
Qed.

Section names.
Implicit Types (c : ascii) (s t : string).

(** A tail without the separator stays in the last segment. *)
Lemma split_app_nosep c s t :
  Py.contains c t = false →
  ∃ ws w, Py.split c s = ws ++ [w] ∧ Py.split c (s +:+ t) = ws ++ [w +:+ t].
Proof.
  intros Ht. induction s as [|a s (ws & w & E1 & E2)].
  - exists [], "". split; [done|]. by rewrite string_app_nil_l, split_none.
  - rewrite string_app_cons, !split_cons, E1, E2.
    destruct (Ascii.eqb a c).
    + by exists ("" :: ws), w.
    + destruct ws as [|x ws]; cbn [app].
      * by exists [], (String a w).
      * by exists (String a x :: ws), w.
Qed.

Lemma basename_app s t :
  Py.contains "/" t = false → Py.basename (s +:+ t) = Py.basename s +:+ t.
Proof.
  intros Ht. unfold Py.basename.
  destruct (split_app_nosep "/" s t Ht) as (ws & w & -> & ->).
  by rewrite !last_last.
Qed.

Lemma split_app_sep c s t :
  Py.contains c t = false →
  Py.split c (s +:+ Py.chr c +:+ t) = Py.split c s ++ [t].
Proof.
  intros Ht. induction s as [|a s IH].
  - rewrite string_app_nil_l. unfold Py.chr. rewrite string_app_cons, split_cons.
    by rewrite Ascii.eqb_refl, string_app_nil_l, split_none.
  - rewrite string_app_cons, !split_cons, IH.
    destruct (Ascii.eqb a c); [done|].
    by destruct (split_nonempty c s) as (w & ws & ->).
Qed.

Lemma drop_last_app s t : Py.drop_last (String.length t) (s +:+ t) = s.
Proof.
  unfold Py.drop_last. rewrite string_length_app.
  replace (String.length s + String.length t - String.length t)%nat
    with (String.length s) by lia.
  induction s as [|a s IH].
  - by destruct t.
  - rewrite string_app_cons. cbn. by rewrite IH.
Qed.

(** The name tried after [c] conflicts over [job_name.sbatch]. *)
Lemma next_name_sbatch job_name z :
  next_name (job_name +:+ ".sbatch") z
  = job_name +:+ "." +:+ Py.str z +:+ ".sbatch".
Proof.
  unfold next_name.
  rewrite basename_app, contains_app by done.
  change (Py.contains "." ".sbatch") with true. rewrite orb_true_r.
  change (job_name +:+ ".sbatch")
    with (job_name +:+ Py.chr "." +:+ "sbatch").
  rewrite split_app_sep by done.
  rewrite removelast_last, length_app. cbn [length].
  replace (length (Py.split "." job_name) + 1 - 1)%nat
    with (length (Py.split "." job_name)) by lia.
  rewrite drop_app_length.
  change ([Py.str z] ++ ["sbatch"]) with [Py.str z; "sbatch"].
  destruct (split_nonempty "." job_name) as (x & xs & E).
  rewrite join_app by (by rewrite E).
  change (Py.join "." (Py.split "." job_name))
    with (Py.join (Py.chr ".") (Py.split "." job_name)).
  by rewrite join_split.
Qed.
End names.

Lemma candidate_sbatch job_name k :
  candidate (job_name +:+ ".sbatch") k
  = job_name +:+ attempt_tag k +:+ ".sbatch".
Proof.
  destruct k as [|k]; [done|]. unfold candidate, attempt_tag.
  by rewrite next_name_sbatch, !string_app_assoc.
Qed.

(** X4. The names [main] tries for its script are [job_name.sbatch],
    [job_name.1.sbatch], [job_name.2.sbatch], ...: the counter always goes
    before the extension, also when the job name holds dots or slashes. The
    name the header uses for the output files is the base name of the script
    without its extension. *)
Theorem script_names (job_name : string) (k : nat) :
  candidate (job_name +:+ ".sbatch") k
  = job_name +:+ attempt_tag k +:+ ".sbatch"
  ∧ Py.drop_last 7 (Py.basename (candidate (job_name +:+ ".sbatch") k))
    = Py.basename job_name +:+ attempt_tag k.
Proof.
  pose proof (candidate_sbatch job_name k) as E.
  split; [done|]. rewrite E.
  assert (Py.contains "/" (attempt_tag k) = false) as Htag.
  { destruct k as [|k]; [done|]. unfold attempt_tag.
    rewrite contains_app. by rewrite contains_str. }
  rewrite <-string_app_assoc, basename_app by done.
  rewrite basename_app by done.
  apply (drop_last_app _ ".sbatch").
Qed.

(** ** The wrapper *)

(** X5. [find_sbatch_wait] prefers the search path, then the directory of
    the invocation path, then that of the real path; what it returns from a
    directory is an executable file there, and it fails, with
    [FileNotFoundError], exactly when all three places fail. *)
Theorem find_sbatch_wait_order (env : Env) :
  let beside_abs := argv0_abspath_dir env +:+ "/sbatch_wait.sh" in
  let beside_real := argv0_realpath_dir env +:+ "/sbatch_wait.sh" in
  (which_finds env = true → find_sbatch_wait env = inr "sbatch_wait.sh")
  ∧ (which_finds env = false → is_executable_file env beside_abs = true →
     find_sbatch_wait env = inr beside_abs)
  ∧ (∀ p, find_sbatch_wait env = inr p →
          p = "sbatch_wait.sh" ∧ which_finds env = true
          ∨ which_finds env = false ∧ is_executable_file env p = true
            ∧ (p = beside_abs ∨ p = beside_real))
  ∧ ((∃ e, find_sbatch_wait env = inl e)
     ↔ which_finds env = false
       ∧ is_executable_file env beside_abs = false
       ∧ is_executable_file env beside_real = false)
  ∧ (∀ e, find_sbatch_wait env = inl e → ∃ msg, e = FileNotFoundError msg).
Proof.
  cbv zeta. unfold find_sbatch_wait.
  destruct (which_finds env);
    destruct (is_executable_file env (argv0_abspath_dir env +:+ _)) eqn:Ha;
    destruct (is_executable_file env (argv0_realpath_dir env +:+ _)) eqn:Hr.
  all: split; [done|]; split; [done|].
  all: split; [intros p [= <-]; auto|].
  all: split; [|by intros e [= <-]; eexists].
  all: split; [by intros [e ?]|try by intros (? & ? & ?)].
  by eexists.
Qed.

Lemma find_sbatch_wait_order_witness :
  find_sbatch_wait
    {| which_finds := false; argv0_abspath_dir := "/usr/local/bin";
       argv0_realpath_dir := "/opt/msub";
       is_executable_file := λ _, true;
       interrupt_at := None; exec_error := λ _, None |}
  = inr "/usr/local/bin/sbatch_wait.sh".
Proof.
  apply (proj1 (proj2 (find_sbatch_wait_order
           {| which_finds := false; argv0_abspath_dir := "/usr/local/bin";
              argv0_realpath_dir := "/opt/msub";
              is_executable_file := λ _, true;
              interrupt_at := None; exec_error := λ _, None |})));
    reflexivity.
Defined.

(** ** The whole header *)

Ltac flatten_text :=
  repeat rewrite ?unlines_app, ?unlines_cons, ?string_app_assoc;
  change (unlines []) with "";
  rewrite ?string_app_nil_r, ?string_app_nil_l.

Lemma write_header_run (ofh_name : string) (args : Args)
    (task_count : nat) (buf : string) :
  write_header ofh_name args task_count buf
  = match cpu_count_of args with
    | inl e => (buf, inl e)
    | inr c =>
        let top := header_top args task_count c ++ output_lines ofh_name args in
        match hold_lines args with
        | inl e => (buf +:+ unlines top, inl e)
        | inr hl => (buf +:+ unlines (top ++ hl ++ header_tail args), inr ())
        end
    end.
Proof.
  unfold write_header. rewrite bind_run. unfold lift at 1.
  destruct (cpu_count_of args) as [e|c]; [done|].
  cbv beta iota zeta.
  do 7 (rewrite bind_run, P_run; cbv beta iota).
  rewrite bind_run. unfold hold_lines, header_tail, output_lines, header_top.
  destruct (Py.truthy_str (hold args)).
  - rewrite bind_run. unfold lift at 1.
    destruct (munge_hold_arg _) as [e|hold_arg]; cbv beta iota.
    { f_equal. by flatten_text. }
    rewrite P_run. cbv beta iota.
    rewrite bind_run.
    destruct (noemail args); rewrite P_run; cbv beta iota;
      rewrite bind_run, P_run; cbv beta iota; rewrite bind_run;
      (destruct (Py.truthy_str (begin args));
       [rewrite P_run|unfold mret at 1, Out_ret at 1]); cbv beta iota;
      rewrite bind_run, !P_run; cbv beta iota; f_equal; by flatten_text.
  - unfold mret at 1, Out_ret at 1. cbv beta iota.
    rewrite bind_run.
    destruct (noemail args); rewrite P_run; cbv beta iota;
      rewrite bind_run, P_run; cbv beta iota; rewrite bind_run;
      (destruct (Py.truthy_str (begin args));
       [rewrite P_run|unfold mret at 1, Out_ret at 1]); cbv beta iota;
      rewrite bind_run, !P_run; cbv beta iota; f_equal; by flatten_text.
Qed.


(** ** The run as a whole *)

Section opened.
Implicit Types (w : World) (filename : string).

Lemma open_sesame_opened fuel w filename script w1 :
  open_sesame fuel w filename = Some (inr (script, w1)) →
  ∃ k, script = candidate filename k
       ∧ files w !! script = None
       ∧ (∀ j, (j < k)%nat → is_Some (files w !! candidate filename j))
       ∧ w1 = with_files w (<[script := ""]> (files w)).
Proof.
  intros H. apply (open_sesame_loop_ends fuel w filename 0) in H
    as (k & _ & Hbusy & H & _).
  unfold attempt in H.
  destruct (open_x w (candidate filename k)) as [e|w'] eqn:E; [done|].
  injection H as <- <-. apply open_x_inv in E as (Hfree & _ & ->).
  exists k. split; [done|]. split; [done|]. split; [|done].
  intros j Hj. apply Hbusy. lia.
Qed.

Lemma open_sesame_refused fuel w filename e :
  open_sesame fuel w filename = Some (inl e) →
  ∃ k, e = PermissionError (candidate filename k)
       ∧ files w !! candidate filename k = None
       ∧ (candidate filename k ∈ denied w).
Proof.
  intros H. apply (open_sesame_loop_ends fuel w filename 0) in H
    as (k & _ & _ & H & Hne).
  unfold attempt in H.
  destruct (open_x w (candidate filename k)) as [e'|w'] eqn:E; [|done].
  injection H as <-. apply open_x_inv in E.
  exists k. destruct e'; try done; by destruct E as (? & ? & [= ->]).
Qed.
End opened.

(** Every way [main] can end, read off its text. *)
Lemma main_inv fuel env args input_file w o w' :
  main fuel env args input_file w = Some (o, w') →
  (o = Exit 1 ∧ w' = w
   ∧ (ambiguous_input args = true ∨ interrupted env input_file = true
      ∨ ingest input_file = Rejected ∨ ingest input_file = Commands []))
  ∨ (ambiguous_input args = false ∧ interrupted env input_file = false
     ∧ ∃ command_list,
         ingest input_file = Commands command_list ∧ command_list ≠ []
         ∧ ((∃ e, open_sesame fuel w (script_name_of args) = Some (inl e)
                  ∧ o = Uncaught e ∧ w' = w)
            ∨ (∃ script_file w1 text r,
                 open_sesame fuel w (script_name_of args)
                 = Some (inr (script_file, w1))
                 ∧ compile script_file args command_list "" = (text, r)
                 ∧ match r with
                   | inl e =>
                       o = Uncaught e
                       ∧ w' = with_files w (<[script_file := text]> (files w))
                   | inr _ =>
                       launch env args script_file
                         (with_files w (<[script_file := text]> (files w)))
                       = (o, w')
                   end))).
Proof.
  unfold main, ambiguous_input, script_name_of.
  destruct (_ && _); [intros [= <- <-]; left; auto|].
  destruct (interrupted env input_file); [intros [= <- <-]; left; auto|].
  destruct (ingest input_file) as [|[|c command_list]];
    [intros [= <- <-]; left; auto 6..|].
  intros H. right. split; [done|]. split; [done|]. exists (c :: command_list).
  split; [done|]. split; [done|].
  destruct (open_sesame _ _ _) as [[e|[script_file w1]]|] eqn:Hopen; [| |done].
  { injection H as <- <-. left. by exists e. }
  right. pose proof (open_sesame_opened _ _ _ _ _ Hopen) as (k & _ & _ & _ & ->).
  destruct (compile _ _ _ _) as [text r] eqn:Hc.
  exists script_file, (with_files w (<[script_file := ""]> (files w))), text, r.
  split; [done|]. split; [done|].
  cbn in H. rewrite insert_insert_eq in H.
  destruct r as [e|[]]; [by injection H as <- <-|by injection H].
Qed.

Lemma launch_inv env args script_file w o w' :
  launch env args script_file w = (o, w') →
  files w' = files w ∧ denied w' = denied w ∧ (∀ code, o ≠ Exit code)
  ∧ (o = Returned →
     nosubmit args = true
     ∧ ∃ sbatch, resolved env args sbatch
                 ∧ stdout w' = stdout w ++ [preview_line args sbatch script_file])
  ∧ (o = Replaced →
     nosubmit args = false
     ∧ ∃ sbatch, resolved env args sbatch
                 ∧ executed w'
                   = Some ([sbatch] ++ job_flags_of args ++ [script_file])).
Proof.
  unfold launch. intros H.
  destruct (if hard_sync args then find_sbatch_wait env else inr "sbatch")
    as [e|sbatch] eqn:Hres; [by injection H as <- <-|].
  assert (resolved env args sbatch) as Hresolved.
  { unfold resolved. destruct (hard_sync args); [done|]. by injection Hres. }
  destruct (nosubmit args).
  { injection H as <- <-. cbn. do 3 (split; [done|]). split; [|done].
    intros _. split; [done|]. by exists sbatch. }
  destruct (makedirs w (stdoutdir args)) as [e|w1] eqn:Hmk;
    [by injection H as <- <-|].
  apply makedirs_inv in Hmk as (Hf & Hd & _).
  destruct (exec_error env sbatch) as [e|]; injection H as <- <-; cbn;
    [done|].
  do 4 (split; [done|]). intros _. split; [done|]. by exists sbatch.
Qed.

(** X7. Once the arguments are parsed, [main] exits with a status exactly
    when both an [-i] and a positional input are given, when the user
    interrupts the reading, when the input is rejected, or when no command
    is found; the status is then 1, the world is as it was, and no file has
    been created. *)
Theorem main_exits_iff
    (fuel : nat) (env : Env) (args : Args) (input_file : list string)
    (w : World) :
  (ambiguous_input args = true ∨ interrupted env input_file = true
   ∨ ingest input_file = Rejected ∨ ingest input_file = Commands [] →
   main fuel env args input_file w = Some (Exit 1, w))
  ∧ (∀ code w', main fuel env args input_file w = Some (Exit code, w') →
       code = 1 ∧ w' = w
       ∧ (ambiguous_input args = true ∨ interrupted env input_file = true
          ∨ ingest input_file = Rejected ∨ ingest input_file = Commands [])).
Proof.
  split.
  - unfold main, ambiguous_input. intros [->|H]; [done|].
    destruct (_ && _); [done|]. destruct H as [->|H]; [done|].
    destruct (interrupted env input_file); [done|]. by destruct H as [->| ->].
  - intros code w' H. apply main_inv in H as [([= <-] & -> & H)|H]; [done|].
    destruct H as (_ & _ & cl & _ & _ & [(e & _ & ? & _)|H]); [done|].
    destruct H as (script & w1 & text & [e|[]] & _ & _ & H); [by destruct H|].
    apply launch_inv in H as (_ & _ & H & _). by destruct (H code).
Qed.

Lemma main_exits_iff_witness :
  main 1 no_wrapper default_args ["# only a comment"; "   "; "."; "echo late"]
    empty_world
  = Some (Exit 1, empty_world).
Proof.
  apply (proj1 (main_exits_iff 1 no_wrapper default_args
                  ["# only a comment"; "   "; "."; "echo late"] empty_world)).
  right. right. right. reflexivity.
Defined.

(** X8. [main] never changes or removes a file that exists: whatever the
    outcome, either the files are as they were, or one file was added, under
    a name that was free, of the form [job_name.sbatch] or
    [job_name.k.sbatch]. *)
Theorem main_adds_at_most_one_file
    (fuel : nat) (env : Env) (args : Args) (input_file : list string)
    (w w' : World) (o : Outcome) :
  main fuel env args input_file w = Some (o, w') →
  (files w' = files w
   ∨ ∃ k text,
       let script_file := job_name_of args +:+ attempt_tag k +:+ ".sbatch" in
       files w !! script_file = None
       ∧ files w' = <[script_file := text]> (files w))
  ∧ (∀ p text, files w !! p = Some text → files w' !! p = Some text)
  ∧ denied w' = denied w.
Proof.
  intros H.
  assert ((files w' = files w
           ∨ ∃ k text,
               files w !! (job_name_of args +:+ attempt_tag k +:+ ".sbatch")
               = None
               ∧ files w'
                 = <[job_name_of args +:+ attempt_tag k +:+ ".sbatch" := text]>
                     (files w))
          ∧ denied w' = denied w) as [Hfiles Hden].
  { apply main_inv in H as [(_ & -> & _)|H]; [by split; [left|]|].
    destruct H as (_ & _ & cl & _ & _ & [(e & _ & _ & ->)|H]);
      [by split; [left|]|].
    destruct H as (script & w1 & text & r & Hopen & _ & H).
    apply open_sesame_opened in Hopen as (k & -> & Hfree & _ & _).
    unfold script_name_of in *.
    rewrite (candidate_sbatch (job_name_of args) k) in *.
    assert (files w' = <[job_name_of args +:+ attempt_tag k +:+ ".sbatch" := text]>
                         (files w) ∧ denied w' = denied w) as [? ?].
    { destruct r as [e|[]]; [by destruct H as [_ ->]|].
      by apply launch_inv in H as (-> & -> & _). }
    split; [|done]. right. by exists k, text. }
  split; [done|]. split; [|done].
  intros p text Hp. destruct Hfiles as [->|(k & t & Hfree & ->)]; [done|].
  rewrite lookup_insert_ne; [done|]. intros <-. congruence.
Qed.

Lemma main_adds_at_most_one_file_witness :
  files busy_dry_world !! "msub_stdin.sbatch" = Some "earlier".
Proof.
  apply (proj1 (proj2 (main_adds_at_most_one_file 2 no_wrapper dry_args
                         ["echo hello"] busy_world busy_dry_world Returned
                         eq_refl))).
  reflexivity.
Defined.

(** X10. When [main] gets to the end, the script it hands over is the one it
    wrote: a new file, named after the job, that holds the header, one
    branch per ingested command in the order of the input, and the footer.
    A dry run prints the command naming that file; a live run replaces the
    process with the submitter, run on that file. *)
Theorem main_submits_what_it_wrote
    (fuel : nat) (env : Env) (args : Args) (input_file : list string)
    (w w' : World) (o : Outcome) :
  main fuel env args input_file w = Some (o, w') →
  o = Returned ∨ o = Replaced →
  ∃ k command_list c hl sbatch,
    let script_file := job_name_of args +:+ attempt_tag k +:+ ".sbatch" in
    ingest input_file = Commands command_list
    ∧ command_list ≠ []
    ∧ cpu_count_of args = inr c
    ∧ hold_lines args = inr hl
    ∧ files w !! script_file = None
    ∧ files w' !! script_file
      = Some (unlines (header_top args (length command_list) c
                         ++ output_lines script_file args ++ hl
                         ++ header_tail args)
                +:+ unlines (imap branch_text command_list)
                +:+ unlines (footer_lines args))
    ∧ resolved env args sbatch
    ∧ (if nosubmit args
       then o = Returned
            ∧ stdout w' = stdout w ++ [preview_line args sbatch script_file]
       else o = Replaced
            ∧ executed w'
              = Some ([sbatch] ++ job_flags_of args ++ [script_file])).
Proof.
  intros H Ho. apply main_inv in H as [(-> & _)|H]; [by destruct Ho|].
  destruct H as (_ & _ & cl & Hcl & Hne & [(e & _ & -> & _)|H]);
    [by destruct Ho|].
  destruct H as (script & w1 & text & r & Hopen & Hc & H).
  apply open_sesame_opened in Hopen as (k & -> & Hfree & _ & _).
  unfold script_name_of in *.
  rewrite (candidate_sbatch (job_name_of args) k) in *.
  destruct r as [e|[]]; [destruct H as [-> _]; by destruct Ho|].
  rewrite compile_run, write_header_run in Hc.
  destruct (cpu_count_of args) as [e|c]; [done|]. cbv zeta in Hc.
  destruct (hold_lines args) as [e|hl]; [done|].
  set (script_file := job_name_of args +:+ attempt_tag k +:+ ".sbatch") in *.
  assert (text
          = unlines (header_top args (length cl) c
                       ++ output_lines script_file args ++ hl
                       ++ header_tail args)
              +:+ unlines (imap branch_text cl)
              +:+ unlines (footer_lines args)) as ->.
  { rewrite app_assoc. by injection Hc. }
  apply launch_inv in H as (Hf & _ & _ & Hret & Hrep).
  assert (∃ sbatch,
            resolved env args sbatch
            ∧ (if nosubmit args
               then o = Returned
                    ∧ stdout w'
                      = stdout w ++ [preview_line args sbatch script_file]
               else o = Replaced
                    ∧ executed w'
                      = Some ([sbatch] ++ job_flags_of args ++ [script_file])))
    as (sbatch & Hres & Hend).
  { destruct Ho as [->| ->].
    - destruct Hret as (-> & sbatch & ? & ?); [done|]. by exists sbatch.
    - destruct Hrep as (-> & sbatch & ? & ?); [done|]. by exists sbatch. }
  exists k, cl, c, hl, sbatch. cbv zeta.
  do 5 (split; [done|]).
  split; [|done]. rewrite Hf. cbn [files with_files].
  by rewrite lookup_insert_eq.
Qed.

Lemma main_submits_what_it_wrote_witness :
  ∃ k command_list c hl sbatch,
    ingest ["echo hello"] = Commands command_list
    ∧ command_list ≠ []
    ∧ cpu_count_of dry_args = inr c
    ∧ hold_lines dry_args = inr hl
    ∧ files busy_world
        !! (job_name_of dry_args +:+ attempt_tag k +:+ ".sbatch") = None
    ∧ files busy_dry_world
        !! (job_name_of dry_args +:+ attempt_tag k +:+ ".sbatch")
      = Some (unlines (header_top dry_args (length command_list) c
                         ++ output_lines
                              (job_name_of dry_args +:+ attempt_tag k
                                 +:+ ".sbatch") dry_args
                         ++ hl ++ header_tail dry_args)
                +:+ unlines (imap branch_text command_list)
                +:+ unlines (footer_lines dry_args))
    ∧ resolved no_wrapper dry_args sbatch
    ∧ Returned = Returned
    ∧ stdout busy_dry_world
      = stdout busy_world
          ++ [preview_line dry_args sbatch
                (job_name_of dry_args +:+ attempt_tag k +:+ ".sbatch")].
Proof.
  apply (main_submits_what_it_wrote 2 no_wrapper dry_args ["echo hello"]
           busy_world busy_dry_world Returned eq_refl).
  by left.
Defined.

(** X11. A second run never takes the script of the first: the name it
    gets differs, its counter is higher, and the first script is still
    there. *)
Theorem successive_runs_differ
    (fuel fuel' : nat) (w w1 w2 : World) (filename p1 p2 : string) :
  open_sesame fuel w filename = Some (inr (p1, w1)) →
  open_sesame fuel' w1 filename = Some (inr (p2, w2)) →
  p1 ≠ p2
  ∧ files w2 !! p1 = Some ""
  ∧ ∃ k1 k2, p1 = candidate filename k1 ∧ p2 = candidate filename k2
             ∧ (k1 < k2)%nat.
Proof.
  intros (k1 & -> & Hfree1 & Hbusy1 & ->)%open_sesame_opened
         (k2 & -> & Hfree2 & Hbusy2 & ->)%open_sesame_opened.
  cbn [files with_files] in *.
  assert (candidate filename k1 ≠ candidate filename k2) as Hne.
  { intros E. rewrite <-E, lookup_insert_eq in Hfree2. done. }
  split; [done|]. split.
  { by rewrite lookup_insert_ne, lookup_insert_eq. }
  exists k1, k2. split; [done|]. split; [done|].
  destruct (decide (k1 < k2)%nat); [done|].
  destruct (decide (k2 = k1)) as [->|]; [done|].
  destruct (Hbusy1 k2) as [t Ht]; [lia|].
  rewrite lookup_insert_ne, Ht in Hfree2 by done. done.
Qed.

Lemma successive_runs_differ_witness :
  "msub_stdin.sbatch" ≠ "msub_stdin.1.sbatch".
Proof.
  apply (successive_runs_differ 1 2 empty_world
           (with_files empty_world {["msub_stdin.sbatch" := ""]})
           (with_files empty_world
              (<["msub_stdin.1.sbatch" := ""]> {["msub_stdin.sbatch" := ""]}))
           "msub_stdin.sbatch");
    vm_compute; reflexivity.
Defined.

(** ** Reading back what [str] writes *)

Section int_str.

Lemma digit_of_pretty_N_char (m : N) :
  (m < 10)%N → Py.digit (pretty_N_char m) = Some (Z.of_N m).
Proof.
  intros Hm.
  assert (m = 0 ∨ m = 1 ∨ m = 2 ∨ m = 3 ∨ m = 4 ∨ m = 5 ∨ m = 6 ∨ m = 7
          ∨ m = 8 ∨ m = 9)%N as H by lia.
  repeat (destruct H as [->|H]; [reflexivity|]). by subst.
Qed.

Lemma int_digits_pretty_N_go (x : N) s :
  Py.int_digits 0 false (pretty_N_go x s)
  = if decide (x = 0)%N then Py.int_digits 0 false s
    else Py.int_digits (Z.of_N x) true s.
Proof.
  revert s. induction (N.lt_wf_0 x) as [x _ IH]; intros s.
  case_decide as Hx; [subst; by rewrite pretty_N_go_0|].
  rewrite pretty_N_go_step by lia.
  rewrite IH by (apply N.div_lt; lia).
  assert (x `mod` 10 < 10)%N as Hm by (apply N.mod_lt; lia).
  pose proof (N.div_mod x 10 ltac:(lia)) as Hdm.
  cbn [Py.int_digits]. rewrite (digit_of_pretty_N_char _ Hm).
  case_decide as Hq; f_equal; lia.
Qed.

Lemma isspace_not_digit a :
  Py.isspace a = true → Py.digit a = None ∧ a ≠ "-"%char ∧ a ≠ "+"%char.
Proof. destruct a as [[] [] [] [] [] [] [] []]; by vm_compute. Qed.

Lemma contains_cons_false c a r :
  Py.contains c (String a r) = false → a ≠ c ∧ Py.contains c r = false.
Proof.
  rewrite contains_cons. by destruct (Ascii.eqb_spec a c).
Qed.

(** A text without blanks is left alone by stripping. *)
Lemma strip_by_no_blank (f : ascii → bool) s :
  (∀ a, f a = true → Py.contains a s = false) →
  Py.rstrip_by f (Py.lstrip_by f s) = s.
Proof.
  intros H.
  assert (Py.lstrip_by f s = s) as ->.
  { destruct s as [|a r]; [done|]. cbn.
    destruct (f a) eqn:Ha; [|done].
    apply H, contains_cons_false in Ha as [? _]. done. }
  induction s as [|a r IH]; [done|]. cbn [Py.rstrip_by]. rewrite IH.
  - destruct r; [|done].
    destruct (f a) eqn:Ha; [|done].
    apply H, contains_cons_false in Ha as [? _]. done.
  - intros c Hc. by apply H, contains_cons_false in Hc as [_ ?].
Qed.

Lemma int_unsigned s :
  Py.contains "+" s = false → Py.contains "-" s = false →
  Py.rstrip_by Py.isspace_c (Py.lstrip_by Py.isspace_c s) = s →
  Py.int s = Py.int_digits 0 false s.
Proof.
  intros Hp Hm Hs. unfold Py.int. rewrite Hs.
  destruct s as [|a r]; [done|].
  apply contains_cons_false in Hp as [Hp _].
  apply contains_cons_false in Hm as [Hm _].
  destruct a as [[] [] [] [] [] [] [] []]; done.
Qed.

Lemma isspace_c_isspace a : Py.isspace_c a = true → Py.isspace a = true.
Proof. destruct a as [[] [] [] [] [] [] [] []]; by vm_compute. Qed.

Lemma str_no_blank z a : Py.isspace a = true → Py.contains a (Py.str z) = false.
Proof.
  intros (? & ? & _)%isspace_not_digit. by apply contains_str.
Qed.

(** [int] reads back what [str] writes. *)
Lemma int_str z : Py.int (Py.str z) = Some z.
Proof.
  destruct z as [|p|p].
  - reflexivity.
  - rewrite int_unsigned.
    + unfold Py.str, pretty, pretty_Z, pretty, pretty_positive, pretty,
        pretty_N.
      case_decide; [done|]. rewrite int_digits_pretty_N_go.
      case_decide; [done|]. cbn. f_equal.
    + apply (contains_pretty_N "+" (Npos p)). done.
    + apply (contains_pretty_N "-" (Npos p)). done.
    + apply strip_by_no_blank. intros a Ha%isspace_c_isspace.
      by apply str_no_blank.
  - unfold Py.int.
    rewrite strip_by_no_blank
      by (intros a Ha%isspace_c_isspace; by apply str_no_blank).
    unfold Py.str, pretty, pretty_Z, pretty, pretty_positive, pretty, pretty_N.
    case_decide; [done|]. rewrite string_app_cons, string_app_nil_l.
    rewrite int_digits_pretty_N_go. case_decide; [done|]. done.
Qed.
End int_str.

(** ** More on the dependency translation *)

Section join_facts.
Implicit Types (c : ascii) (s t : string) (l : list string).

Lemma split_app_head c s t :
  Py.contains c s = false →
  Py.split c (s +:+ Py.chr c +:+ t) = s :: Py.split c t.
Proof.
  induction s as [|a s IH].
  - intros _. rewrite string_app_nil_l. unfold Py.chr.
    by rewrite string_app_cons, split_cons, Ascii.eqb_refl.
  - intros [Ha Hs]%contains_cons_false.
    rewrite string_app_cons, split_cons, IH by done.
    by destruct (Ascii.eqb_spec a c).
Qed.

(** Splitting undoes joining, for segments free of the separator. *)
Lemma split_join c l :
  l ≠ [] → Forall (λ s, Py.contains c s = false) l →
  Py.split c (Py.join (Py.chr c) l) = l.
Proof.
  intros Hne H. induction H as [|s l Hs Hl IH]; [done|].
  destruct l as [|t l]; [by apply split_none|].
  rewrite join_cons, split_app_head by done. f_equal. by apply IH.
Qed.

Lemma contains_join c sep l :
  Py.contains c sep = false → Forall (λ s, Py.contains c s = false) l →
  Py.contains c (Py.join sep l) = false.
Proof.
  intros Hsep H. induction H as [|s l Hs Hl IH]; [done|].
  destruct l as [|t l]; [done|].
  by rewrite join_cons, !contains_app, Hs, Hsep, IH.
Qed.
End join_facts.

(** X12. A plain list of job numbers is translated number by number: for
    integers [ids], at least one, the translation of their decimal
    renderings joined by commas is [afterok:] followed by the same
    renderings joined by colons. *)
Theorem munge_hold_arg_job_numbers (ids : list Z) :
  ids ≠ [] →
  munge_hold_arg (Py.join "," (Py.str <$> ids))
  = inr ("afterok:" +:+ Py.join ":" (Py.str <$> ids)).
Proof.
  intros Hne. unfold munge_hold_arg.
  assert (∀ c, Py.digit c = None → c ≠ "-"%char →
               Forall (λ s, Py.contains c s = false) (Py.str <$> ids)) as Hfree.
  { intros c ? ?. apply Forall_fmap, Forall_forall. intros z _.
    by apply contains_str. }
  rewrite contains_join by (by try apply Hfree).
  change (Py.join "," (Py.str <$> ids))
    with (Py.join (Py.chr ",") (Py.str <$> ids)).
  rewrite split_join; [|by destruct ids|by apply Hfree].
  by rewrite mapM_fmap_Some by apply int_str.
Qed.

Lemma munge_hold_arg_job_numbers_witness :
  munge_hold_arg (Py.join "," (Py.str <$> [1204; 77; 0]))
  = inr ("afterok:" +:+ Py.join ":" (Py.str <$> [1204; 77; 0])).
Proof. apply (munge_hold_arg_job_numbers [1204; 77; 0]). done. Defined.

(** X13. A translated hold value always holds a colon, so translating it
    again changes nothing. *)
Theorem munge_hold_arg_idempotent (hold_arg translated : string) :
  munge_hold_arg hold_arg = inr translated →
  Py.contains ":" translated = true
  ∧ munge_hold_arg translated = inr translated.
Proof.
  intros H.
  assert (Py.contains ":" translated = true) as Hc.
  { unfold munge_hold_arg in H.
    destruct (Py.contains ":" hold_arg) eqn:E; [by injection H as <-|].
    destruct (mapM _ _); [|done]. injection H as <-.
    by rewrite contains_app. }
  split; [done|]. unfold munge_hold_arg. by rewrite Hc.
Qed.

Lemma munge_hold_arg_idempotent_witness :
  munge_hold_arg "afterok:12:34" = inr "afterok:12:34".
Proof.
  apply (munge_hold_arg_idempotent " 12 ,+34 " "afterok:12:34").
  vm_compute. reflexivity.
Defined.

(** ** The legacy environment string *)

Section legacy.
Implicit Types (s t : string).

Lemma split_ws_go_word t :
  (∀ a, Py.isspace a = true → Py.contains a t = false) →
  Py.split_ws_go t = (t, []).
Proof.
  induction t as [|a t IH]; [done|]. intros H. cbn.
  rewrite IH by (intros c Hc; by apply H, contains_cons_false in Hc as [_ ?]).
  destruct (Py.isspace a) eqn:Ha; [|done].
  by apply H, contains_cons_false in Ha as [? _].
Qed.

Lemma split_ws_go_last s t :
  t ≠ "" → (∀ a, Py.isspace a = true → Py.contains a t = false) →
  ∃ w ws, Py.split_ws_go (s +:+ " " +:+ t) = (w, ws ++ [t]).
Proof.
  intros Hne Ht. induction s as [|a s (w & ws & IH)].
  - rewrite string_app_nil_l, string_app_cons, string_app_nil_l. cbn.
    rewrite split_ws_go_word by done. exists "", [].
    by destruct t.
  - rewrite string_app_cons. cbn. rewrite IH.
    destruct (Py.isspace a).
    + destruct w; [by exists "", ws|]. by eexists "", (_ :: ws).
    + by eexists _, ws.
Qed.

Lemma default_Some {A : Type} (d x : A) : default d (Some x) = x.
Proof. reflexivity. Qed.

Lemma split_ws_spaces n : Py.split_ws (Py.spaces n) = [].
Proof.
  unfold Py.split_ws.
  assert (Py.split_ws_go (Py.spaces n) = ("", [])) as ->; [|done].
  induction n as [|n IH]; [done|]. cbn. by rewrite IH.
Qed.
End legacy.

(** X15. The legacy environment string is read only when [--cpu] is 1. Then
    its last word is the number of cores: after [name n] the cores are [n].
    With any other [--cpu] the string is ignored, and a string of blanks
    only raises [IndexError]. *)
Theorem legacy_environ_cores (args : Args) :
  (cpu args ≠ 1 → cpu_count_of args = inr (cpu args))
  ∧ (cpu args = 1 → Py.truthy_str (environ args) = false →
     cpu_count_of args = inr 1)
  ∧ (cpu args = 1 →
     ∀ name n, environ args = Some (name +:+ " " +:+ Py.str n) →
               cpu_count_of args = inr n)
  ∧ (cpu args = 1 →
     ∀ k, environ args = Some (Py.spaces (S k)) →
          cpu_count_of args = inl IndexError).
Proof.
  unfold cpu_count_of. split; [|split; [|split]].
  - intros H. apply Z.eqb_neq in H. by rewrite H.
  - intros -> ->. by rewrite andb_false_r.
  - intros -> name n ->. cbn [Z.eqb andb]. rewrite default_Some.
    assert (Py.truthy_str (Some (name +:+ " " +:+ Py.str n)) = true) as ->.
    { destruct name; [|done]. by rewrite string_app_nil_l. }
    assert (Py.str n ≠ "") as Hne.
    { intros E. pose proof (int_str n) as H. by rewrite E in H. }
    destruct (split_ws_go_last name (Py.str n) Hne (str_no_blank n))
      as (w & ws & E).
    unfold Py.split_ws. rewrite E.
    assert (last (Py.cons_word w (ws ++ [Py.str n])) = Some (Py.str n)) as ->.
    { destruct w; cbn [Py.cons_word]; [by rewrite last_snoc|].
      by rewrite app_comm_cons, last_snoc. }
    by rewrite int_str.
  - intros -> k ->. cbn [Z.eqb andb Py.truthy_str Py.spaces].
    rewrite default_Some.
    change (String " " (Py.spaces k)) with (Py.spaces (S k)).
    by rewrite split_ws_spaces.
Qed.

Lemma legacy_environ_cores_witness :
  cpu_count_of (mkArgs None 1 None (Some ("single" +:+ " " +:+ Py.str 4)) None
                  None false None None None None
                  false false false 50 "global" "slurm_output" false)
  = inr 4.
Proof.
  apply (proj1 (proj2 (proj2 (legacy_environ_cores
           (mkArgs None 1 None (Some ("single" +:+ " " +:+ Py.str 4)) None
              None false None None None None
              false false false 50 "global" "slurm_output" false))))
           eq_refl "single" 4).
  reflexivity.
Defined.

(** ** Feeding the commands back *)

(** X16. A command list that came out of the reading loop goes through it
    unchanged: read again, line by line, it is accepted as it is. *)
Theorem ingest_of_ingested (input_file command_list : list string) :
  ingest input_file = Commands command_list →
  ingest command_list = Commands command_list.
Proof.
  intros H. unfold ingest in *. rewrite ingest_loop_closed_form in *.
  destruct (existsb _ _) eqn:Hex; [done|]. injection H as <-.
  set (cl := List.filter is_kept (Py.strip <$> until_sentinel input_file)).
  assert (Forall (λ c, Py.strip c = c ∧ String.eqb c "." = false
                       ∧ is_kept c = true ∧ is_directive c = false) cl)
    as Hcl.
  { apply Forall_forall. intros c Hc%list_elem_of_In%filter_In.
    destruct Hc as [Hin Hkept].
    apply list_elem_of_In, list_elem_of_fmap in Hin as (x & -> & Hx).
    split; [apply strip_idem|].
    split; [by apply String.eqb_neq, (until_sentinel_not_sentinel input_file)|].
    split; [done|].
    destruct (is_directive (Py.strip x)) eqn:Hd; [|done].
    rewrite <-Hex. symmetry. apply existsb_exists. exists (Py.strip x).
    split; [|done]. by apply list_elem_of_In, list_elem_of_fmap_2. }
  clearbody cl. clear Hex.
  assert (until_sentinel cl = cl ∧ Py.strip <$> cl = cl
          ∧ existsb is_directive cl = false ∧ List.filter is_kept cl = cl)
    as (-> & -> & -> & ->); [|done].
  induction Hcl as [|c cl (Hs & Hdot & Hk & Hd) _ (IH1 & IH2 & IH3 & IH4)];
    [done|].
  cbn. rewrite Hs, Hdot, Hk, Hd, IH1. cbn.
  change (map Py.strip cl) with (Py.strip <$> cl).
  by rewrite IH2, IH3, IH4.
Qed.

Lemma ingest_of_ingested_witness :
  ingest ["echo a"; "echo  b"] = Commands ["echo a"; "echo  b"].
Proof.
  apply (ingest_of_ingested [" echo a "; "# note"; ""; "echo  b"; "."; "x"]).
  reflexivity.
Defined.

(** ** The branches as they stand in the script *)

Section branch_text_facts.
Implicit Types (command_list : list string) (i : nat).

Lemma cut_label_app label cmd :
  Py.contains ")" label = false →
  cut_label (label +:+ ") " +:+ cmd) = Some (label, cmd).
Proof.
  induction label as [|a label IH].
  - done.
  - intros [Ha Hl]%contains_cons_false. rewrite string_app_cons. cbn.
    apply Ascii.eqb_neq in Ha. rewrite Ha. by rewrite IH.
Qed.

Lemma read_branch_lines bs :
  Forall (λ b, Py.contains ")" b.1 = false) bs →
  read_branches (branch_lines bs) = Some bs.
Proof.
  induction 1 as [|[label cmd] bs Hl _ IH]; [done|].
  cbn [branch_lines read_branches]. cbn [fst] in Hl.
  by rewrite String.eqb_refl, cut_label_app, IH.
Qed.

Lemma split_branch_text i command_list :
  Forall (λ c, Py.contains Py.nl c = false) command_list →
  Py.split Py.nl (unlines (imap (λ k, branch_text (i + k)) command_list))
  = branch_lines (imap (λ k c, (Py.str (Z.of_nat (i + k)), c)) command_list)
      ++ [""].
Proof.
  intros H. revert i. induction H as [|c cl Hc _ IH]; intros i; [done|].
  rewrite !imap_cons, unlines_cons, Nat.add_0_r. cbn [branch_lines].
  unfold branch_text. rewrite <-!app_comm_cons.
  rewrite (imap_ext _ (λ k, branch_text (S i + k)))
    by (intros k y _; cbn; by rewrite Nat.add_succ_r).
  rewrite (imap_ext (_ ∘ S) (λ k x, (Py.str (Z.of_nat (S i + k)), x)))
    by (intros k y _; cbn; by rewrite Nat.add_succ_r).
  rewrite <-IH.
  replace ((Py.str (Z.of_nat i) +:+ ") " +:+ c +:+ Py.chr Py.nl +:+ ";;")
             +:+ Py.chr Py.nl
             +:+ unlines (imap (λ k, branch_text (S i + k)) cl))
    with ((Py.str (Z.of_nat i) +:+ ") " +:+ c) +:+ Py.chr Py.nl
            +:+ ";;" +:+ Py.chr Py.nl
            +:+ unlines (imap (λ k, branch_text (S i + k)) cl))
    by (by rewrite !string_app_assoc).
  rewrite split_app_head.
  - by rewrite split_app_head.
  - rewrite !contains_app, Hc. by rewrite contains_str.
Qed.

Lemma branches_labels command_list :
  Forall (λ b, Py.contains ")" b.1 = false) (branches command_list)
  ∧ NoDup (branches command_list).*1.
Proof.
  unfold branches. split.
  - apply Forall_forall. intros [l c] (k & Hk)%list_elem_of_lookup_1.
    rewrite list_lookup_imap in Hk.
    destruct (command_list !! k); [|done]. injection Hk as <- _.
    by apply contains_str.
  - apply NoDup_alt. intros j k x.
    rewrite !list_lookup_fmap, !list_lookup_imap.
    destruct (command_list !! j); [|done].
    destruct (command_list !! k); [|done].
    intros [= <-] [= E]. apply (inj pretty) in E. lia.
Qed.
End branch_text_facts.

(** A command that holds an end-of-branch marker and a label of its own:
    the lines are accepted as two commands, and the body of their script
    holds three markers and two branches labelled 1. *)
Lemma command_injects_a_branch :
  let command_list := ["true ;; 1) echo hijacked"; "echo b"] in
  let body := (write_commands default_args 0 command_list "").1 in
  ingest command_list = Commands command_list
  ∧ length command_list = 2%nat
  ∧ count_sub ";;" body = 3%nat
  ∧ count_sub "1) echo" body = 2%nat.
Proof. vm_compute. done. Qed.

(** C1 (amended). For a list of task commands the script holds, between the
    header and the footer and in the order of the commands, one branch text
    per task: the line [i) command], with the command as given, and the line
    [;;], for [i] = 0, 1, 2, ... without a gap. The labels are pairwise
    different, and when no command holds a line break these are exactly the
    lines of the body, from which the labels and the commands are read back
    as they were given. The commands are written as they are: one that
    holds [;;] brings markers of its own into the script. *)
Theorem one_branch_per_task (ofh_name : string) (args : Args)
    (command_list : list string) (buf : string) :
  compile ofh_name args command_list buf
  = match write_header ofh_name args (length command_list) buf with
    | (text, inr _) =>
        (text +:+ unlines (imap branch_text command_list)
           +:+ unlines (footer_lines args), inr ())
    | (text, inl e) => (text, inl e)
    end
  ∧ write_commands args 0 command_list buf
    = (buf +:+ unlines (imap branch_text command_list), inr ())
  ∧ length (imap branch_text command_list) = length command_list
  ∧ (∀ i, imap branch_text command_list !! i
          = (λ c, Py.str (Z.of_nat i) +:+ ") " +:+ c +:+ Py.chr Py.nl +:+ ";;")
              <$> command_list !! i)
  ∧ (∀ i, branches command_list !! i
          = (λ c, (Py.str (Z.of_nat i), c)) <$> command_list !! i)
  ∧ NoDup (branches command_list).*1
  ∧ (Forall (λ c, Py.contains Py.nl c = false) command_list →
     Py.split Py.nl (write_commands args 0 command_list "").1
     = branch_lines (branches command_list) ++ [""]
     ∧ read_branches (branch_lines (branches command_list))
       = Some (branches command_list)).
Proof.
  split; [apply compile_run|].
  split; [apply (write_commands_run args 0)|].
  split; [apply length_imap|].
  split; [intros i; by rewrite list_lookup_imap|].
  split; [intros i; unfold branches; by rewrite list_lookup_imap|].
  split; [apply branches_labels|].
  intros Hnl. split.
  - rewrite (write_commands_run args 0). cbn [fst].
    rewrite string_app_nil_l. apply (split_branch_text 0 _ Hnl).
  - apply read_branch_lines, branches_labels.
Qed.

Lemma one_branch_per_task_witness :
  Py.split Py.nl (write_commands default_args 0 ["echo a"; "ls | wc"] "").1
  = ["0) echo a"; ";;"; "1) ls | wc"; ";;"; ""]
  ∧ read_branches ["0) echo a"; ";;"; "1) ls | wc"; ";;"]
    = Some [("0", "echo a"); ("1", "ls | wc")].
Proof.
  apply (proj2 (proj2 (proj2 (proj2 (proj2 (proj2
           (one_branch_per_task "job.sbatch" default_args
              ["echo a"; "ls | wc"] ""))))))).
  repeat constructor.
Defined.
